(** * sdc/tests/tests_perf/generator.py : test-case expansion and probe synthesis

    A shallow embedding of the performance-test generator of SDC (HPAT):
    the [TestCase] table entries, the helpers that cut a parameter text
    into data and literal parameters, the textual assembly of the timed
    probe, its compilation by [exec], and the registration of one test
    method per expanded case on the target class.

    Layout: Python's string and list primitives used by the module; the
    descriptors and the pure helpers; a fragment of Python (lexer, parser,
    evaluator) large enough to run the text [create_func] assembles; the
    probe factory and the registrar; then the theorems. *)

From Stdlib Require Import ZArith Ascii String List Lia Bool.
From stdpp Require Import gmap strings list.

Set Warnings "-register-all".

Local Open Scope Z_scope.

(** ** Python primitives on [str] and [list] *)

Module Py.

(** The one-character string ["\n"]. *)
Definition nl : string := String (ascii_of_nat 10) EmptyString.

(** [bool(s)] for a [str]: the empty string is falsy. *)
Definition truthy (s : string) : bool :=
  match s with EmptyString => false | String _ _ => true end.

(** [sep.join(parts)]. *)
Fixpoint join (sep : string) (parts : list string) : string :=
  match parts with
  | [] => ""
  | [p] => p
  | p :: rest => p +:+ sep +:+ join sep rest
  end.

(** [s.startswith(p)]. *)
Fixpoint startswith (p s : string) : bool :=
  match p, s with
  | EmptyString, _ => true
  | String a p', String b s' => if Ascii.eqb a b then startswith p' s' else false
  | String _ _, EmptyString => false
  end.

(** [s.split(sep)] for a non-empty [sep]: the text is scanned from the
    left, every occurrence of [sep] closes the current piece, and the
    characters of a matched separator are skipped ([skip] counts those
    still to pass).  [cur] holds the current piece, reversed. *)
Fixpoint split_go (sep s : string) (skip : nat) (cur : string) : list string :=
  match s with
  | EmptyString => [String.rev cur]
  | String c s' =>
      match skip with
      | S k => split_go sep s' k cur
      | O =>
          if startswith sep s
          then String.rev cur :: split_go sep s' (Nat.pred (String.length sep)) ""
          else split_go sep s' O (String c cur)
      end
  end.

Definition split (sep s : string) : list string := split_go sep s O "".

(** A slice bound [k] of a sequence of length [len], as Python clamps
    it: a negative bound counts from the end. *)
Definition bound (len : nat) (k : Z) : nat :=
  if k <? 0 then Z.to_nat (Z.max (Z.of_nat len + k) 0)
  else Nat.min (Z.to_nat k) len.

(** [l[:k]] and [l[k:]]. *)
Definition slice_to {A} (k : Z) (l : list A) : list A := take (bound (length l) k) l.
Definition slice_from {A} (k : Z) (l : list A) : list A := drop (bound (length l) k) l.

(** [str(b)] for a [bool], as an f-string renders it. *)
Definition str_bool (b : bool) : string := if b then "True" else "False".

(** [str(x)] for a value that is [None] or a [str]. *)
Definition str_opt (x : option string) : string :=
  match x with None => "None" | Some s => s end.

End Py.

(** ** Descriptors *)

(** [CallExpression]: one channel of a multi-channel comparison. *)
Record CallExpression := {
  code : string;
  type_ : string;
  jitted : bool
}.

(** The [call_expr] field, when it is not [None], holds a string or a
    list of [CallExpression]. *)
Inductive call_expr_t :=
| CEStr (s : string)
| CEList (l : list CallExpression).

(** A data generator is opaque to this module; it is named by a label. *)
Definition data_gen := string.

(** [TestCase]. *)
Record TestCase := {
  name : string;
  size : list Z;
  params : string;
  call_expr : option call_expr_t;
  usecase_params : option string;
  input_data : option (list Z);
  data_num : Z;
  data_gens : option (list data_gen);
  skip : bool;
  check_skipna : bool
}.

(** [case._replace(params=p)]: a new tuple, the other fields copied. *)
Definition replace_params (case : TestCase) (p : string) : TestCase :=
  {| name := name case; size := size case; params := p;
     call_expr := call_expr case; usecase_params := usecase_params case;
     input_data := input_data case; data_num := data_num case;
     data_gens := data_gens case; skip := skip case;
     check_skipna := check_skipna case |}.

(** ** Variant expansion *)

(** The body of the inner loop of [skipna_cases] for one value of
    [skipna]. *)
Definition skipna_variant (case : TestCase) (skipna : bool) : TestCase :=
  let params := params case in
  let params := if Py.truthy params then params +:+ ", " else params in
  let params := params +:+ "skipna=" +:+ Py.str_bool skipna in
  replace_params case params.

(** [skipna_cases]: the generator, as the list of what it yields. *)
Fixpoint skipna_cases (cases : list TestCase) : list TestCase :=
  match cases with
  | [] => []
  | case :: rest =>
      (if check_skipna case
       then map (skipna_variant case) [true; false]
       else [case]) ++ skipna_cases rest
  end.

(** ** Parameter partition *)

(** The width both partition helpers compute. *)
Definition extra_data_num (test_case : TestCase) : Z :=
  match data_gens test_case with
  | None => data_num test_case - 1
  | Some gens => Z.of_nat (length gens)
  end.

(** The locals [method_params] and [extra_usecase_params] of the two
    helpers. *)
Definition method_params (test_case : TestCase) : list string :=
  Py.slice_from (extra_data_num test_case) (Py.split ", " (params test_case)).

Definition extra_usecase_params (test_case : TestCase) : list string :=
  Py.slice_to (extra_data_num test_case) (Py.split ", " (params test_case)).

Definition gen_params_wo_data (test_case : TestCase) : string :=
  Py.join ", " (method_params test_case).

Definition gen_usecase_params (test_case : TestCase) : string :=
  let usecase_params_parts := "data" :: extra_usecase_params test_case in
  Py.join ", " usecase_params_parts.

(** ** Default call expression *)

Definition gen_call_expr (test_case : TestCase) (prefix : string) : string :=
  let prefix_as_list := if Py.truthy prefix then [prefix] else [] in
  let call_expr_parts :=
    ["data"] ++ prefix_as_list ++
    [name test_case +:+ "(" +:+ params test_case +:+ ")"] in
  Py.join "." call_expr_parts.

(** ** A fragment of Python

    [create_func] hands a text to [exec].  What [exec] does with it is
    Python's; the part needed here is modelled below, on a fragment:

    - characters: ASCII letters, digits, [_], space, newline and
      [( ) , . = + - :];
    - expressions: names, decimal integers, [None], [True], [False],
      unary and binary [+] and [-], attribute access, calls with
      positional and keyword arguments, tuples;
    - statements: one [def] whose parameters are plain names and whose
      body is a block of assignments to a name and [return]s;
    - values: integers, [None], booleans, clock readings, tuples, the
      module [time] and its function [time.time]; any other object a
      name may be bound to is opaque, and whatever is done with it
      leaves the fragment.

    Every outcome is three-way: a result, a Python exception, or
    [Beyond] when the text or the values leave the fragment, in which
    case the model makes no statement about what Python does. *)

Module PyLang.

Inductive exn :=
| SyntaxError
| NameError (x : string)
| UnboundLocalError (x : string)
| TypeError
| KeyError (k : string).

Inductive res (A : Type) :=
| Ok (a : A)
| Raise (e : exn)
| Beyond.
Arguments Ok {A} a.
Arguments Raise {A} e.
Arguments Beyond {A}.

#[global] Instance res_ret : MRet res := fun A a => Ok a.
#[global] Instance res_bind : MBind res := fun A B f m =>
  match m with
  | Ok a => f a
  | Raise e => Raise e
  | Beyond => Beyond
  end.
#[global] Instance res_fmap : FMap res := fun A B f m =>
  match m with
  | Ok a => Ok (f a)
  | Raise e => Raise e
  | Beyond => Beyond
  end.

Definition is_ok {A} (r : res A) : bool :=
  match r with Ok _ => true | _ => false end.

(** *** Lexer *)

Inductive token :=
| TName (x : string)
| TInt (n : Z)
| TNone | TTrue | TFalse
| TDef | TReturn
| TLPar | TRPar | TComma | TDot | TEq | TPlus | TMinus | TColon.

Definition in_range (lo hi : nat) (c : ascii) : bool :=
  let n := nat_of_ascii c in (lo <=? n)%nat && (n <=? hi)%nat.

Definition is_digit (c : ascii) : bool := in_range 48 57 c.
Definition is_letter (c : ascii) : bool :=
  in_range 65 90 c || in_range 97 122 c || Ascii.eqb c "_".

(** Reserved words the fragment has no syntax for; [__debug__] is with
    them because Python refuses to bind it. *)
Definition other_keywords : list string :=
  ["and"; "as"; "assert"; "async"; "await"; "break"; "class"; "continue";
   "del"; "elif"; "else"; "except"; "finally"; "for"; "from"; "global";
   "if"; "import"; "in"; "is"; "lambda"; "nonlocal"; "not"; "or"; "pass";
   "raise"; "try"; "while"; "with"; "yield"; "__debug__"].

Definition word_token (w : string) : option token :=
  if String.eqb w "None" then Some TNone
  else if String.eqb w "True" then Some TTrue
  else if String.eqb w "False" then Some TFalse
  else if String.eqb w "def" then Some TDef
  else if String.eqb w "return" then Some TReturn
  else if existsb (String.eqb w) other_keywords then None
  else Some (TName w).

Fixpoint digits_value (s : string) (acc : Z) : Z :=
  match s with
  | EmptyString => acc
  | String c s' => digits_value s' (10 * acc + (Z.of_nat (nat_of_ascii c) - 48))
  end.

(** A decimal literal: a lone [0], or digits not led by [0], at most
    4300 of them. *)
Definition int_token (w : string) : option token :=
  match w with
  | String "0" (String _ _) => None
  | _ => if (4300 <? String.length w)%nat then None
         else Some (TInt (digits_value w 0))
  end.

(** The word or number being read, reversed. *)
Inductive pending :=
| PNone
| PWord (r : string)
| PNum (r : string).

Definition flush (p : pending) : option (list token) :=
  match p with
  | PNone => Some []
  | PWord r => t ← word_token (String.rev r); Some [t]
  | PNum r => t ← int_token (String.rev r); Some [t]
  end.

Definition next_is (f : ascii -> bool) (s : string) : bool :=
  match s with String c _ => f c | EmptyString => false end.

(** The token of a punctuation character [c] followed by [s]; a space
    gives no token; [None] leaves the fragment (two-character
    operators, floats, anything else). *)
Definition punct (c : ascii) (s : string) (p : pending) : option (list token) :=
  if Ascii.eqb c " " then Some []
  else if Ascii.eqb c "(" then Some [TLPar]
  else if Ascii.eqb c ")" then Some [TRPar]
  else if Ascii.eqb c "," then Some [TComma]
  else if Ascii.eqb c ":" then
    if next_is (Ascii.eqb "=") s then None else Some [TColon]
  else if Ascii.eqb c "=" then
    if next_is (Ascii.eqb "=") s then None else Some [TEq]
  else if Ascii.eqb c "+" then
    if next_is (Ascii.eqb "=") s then None else Some [TPlus]
  else if Ascii.eqb c "-" then
    if next_is (Ascii.eqb "=") s || next_is (Ascii.eqb ">") s then None
    else Some [TMinus]
  else if Ascii.eqb c "." then
    match p with
    | PNum _ => None
    | _ => if next_is is_digit s || next_is (Ascii.eqb ".") s then None
           else Some [TDot]
    end
  else None.

Fixpoint lex (s : string) (p : pending) : option (list token) :=
  match s with
  | EmptyString => flush p
  | String c s' =>
      if is_letter c then
        match p with
        | PNone => lex s' (PWord (String c ""))
        | PWord r => lex s' (PWord (String c r))
        | PNum _ => None
        end
      else if is_digit c then
        match p with
        | PNone => lex s' (PNum (String c ""))
        | PWord r => lex s' (PWord (String c r))
        | PNum r => lex s' (PNum (String c r))
        end
      else
        pre ← flush p;
        t ← punct c s' p;
        post ← lex s' PNone;
        Some (pre ++ t ++ post)
  end.

(** *** Syntax *)

Inductive unop := Pos | Neg.
Inductive binop := Add | Sub.

Inductive expr :=
| EName (x : string)
| EInt (n : Z)
| ENone
| EBool (b : bool)
| EUn (o : unop) (e : expr)
| EBin (o : binop) (l r : expr)
| EAttr (e : expr) (a : string)
| ECall (f : expr) (pos : exprs) (kw : kwargs)
| ETuple (es : exprs)
with exprs :=
| ENil
| ECons (e : expr) (es : exprs)
with kwargs :=
| KNil
| KCons (k : string) (e : expr) (ks : kwargs).

Inductive stmt :=
| SAssign (x : string) (e : expr)
| SReturn (e : option expr).

(** A function object: what [def] binds. *)
Record pyfunc := {
  f_name : string;
  f_params : list string;
  f_body : list stmt
}.

(** *** Parser

    Recursive descent over the tokens of one logical line.  A grammar
    error is [Raise SyntaxError]; a construct Python may accept but the
    fragment lacks is [Beyond].  [fuel] bounds the recursion depth. *)

Definition syntax_error {A} : res A := Raise SyntaxError.

Fixpoint parse_expr (fuel : nat) (ts : list token) {struct fuel}
  : res (expr * list token) :=
  match fuel with
  | O => Beyond
  | S fuel =>
      '(l, ts) ← parse_unary fuel ts;
      parse_binrest fuel l ts
  end

with parse_binrest (fuel : nat) (l : expr) (ts : list token) {struct fuel}
  : res (expr * list token) :=
  match fuel with
  | O => Beyond
  | S fuel =>
      match ts with
      | TPlus :: ts =>
          '(r, ts) ← parse_unary fuel ts;
          parse_binrest fuel (EBin Add l r) ts
      | TMinus :: ts =>
          '(r, ts) ← parse_unary fuel ts;
          parse_binrest fuel (EBin Sub l r) ts
      | _ => Ok (l, ts)
      end
  end

with parse_unary (fuel : nat) (ts : list token) {struct fuel}
  : res (expr * list token) :=
  match fuel with
  | O => Beyond
  | S fuel =>
      match ts with
      | TPlus :: ts => '(e, ts) ← parse_unary fuel ts; Ok (EUn Pos e, ts)
      | TMinus :: ts => '(e, ts) ← parse_unary fuel ts; Ok (EUn Neg e, ts)
      | _ => '(a, ts) ← parse_atom fuel ts; parse_trailers fuel a ts
      end
  end

with parse_atom (fuel : nat) (ts : list token) {struct fuel}
  : res (expr * list token) :=
  match fuel with
  | O => Beyond
  | S fuel =>
      match ts with
      | TName x :: ts => Ok (EName x, ts)
      | TInt n :: ts => Ok (EInt n, ts)
      | TNone :: ts => Ok (ENone, ts)
      | TTrue :: ts => Ok (EBool true, ts)
      | TFalse :: ts => Ok (EBool false, ts)
      | TLPar :: TRPar :: ts => Ok (ETuple ENil, ts)
      | TLPar :: ts =>
          '(e, ts) ← parse_expr fuel ts;
          match ts with
          | TRPar :: ts => Ok (e, ts)
          | TComma :: ts =>
              '(es, ts) ← parse_elems fuel ts;
              Ok (ETuple (ECons e es), ts)
          | _ => syntax_error
          end
      | _ => syntax_error
      end
  end

(** Attribute accesses and calls after an atom. *)
with parse_trailers (fuel : nat) (e : expr) (ts : list token) {struct fuel}
  : res (expr * list token) :=
  match fuel with
  | O => Beyond
  | S fuel =>
      match ts with
      | TDot :: TName a :: ts => parse_trailers fuel (EAttr e a) ts
      | TDot :: _ => syntax_error
      | TLPar :: ts =>
          '(pos, kw, ts) ← parse_args fuel [] ts;
          parse_trailers fuel (ECall e pos kw) ts
      | _ => Ok (e, ts)
      end
  end

(** The elements of a parenthesised tuple after its first comma, up to
    the closing parenthesis. *)
with parse_elems (fuel : nat) (ts : list token) {struct fuel}
  : res (exprs * list token) :=
  match fuel with
  | O => Beyond
  | S fuel =>
      match ts with
      | TRPar :: ts => Ok (ENil, ts)
      | _ =>
          '(e, ts) ← parse_expr fuel ts;
          match ts with
          | TRPar :: ts => Ok (ECons e ENil, ts)
          | TComma :: ts =>
              '(es, ts) ← parse_elems fuel ts;
              Ok (ECons e es, ts)
          | _ => syntax_error
          end
      end
  end

(** The arguments of a call after its opening parenthesis; [seen] are
    the keywords already given.  A repeated keyword and a positional
    argument after a keyword are compile-time errors. *)
with parse_args (fuel : nat) (seen : list string) (ts : list token) {struct fuel}
  : res (exprs * kwargs * list token) :=
  match fuel with
  | O => Beyond
  | S fuel =>
      match ts with
      | TRPar :: ts => Ok (ENil, KNil, ts)
      | TName k :: TEq :: ts =>
          if existsb (String.eqb k) seen then syntax_error
          else
            '(v, ts) ← parse_expr fuel ts;
            match ts with
            | TRPar :: ts => Ok (ENil, KCons k v KNil, ts)
            | TComma :: ts =>
                '(pos, kw, ts) ← parse_args fuel (k :: seen) ts;
                Ok (pos, KCons k v kw, ts)
            | _ => syntax_error
            end
      | _ =>
          '(e, ts) ← parse_expr fuel ts;
          match ts, seen with
          | TEq :: _, _ => Beyond
          | _, _ :: _ => syntax_error
          | TRPar :: ts, [] => Ok (ECons e ENil, KNil, ts)
          | TComma :: ts, [] =>
              '(pos, kw, ts) ← parse_args fuel seen ts;
              Ok (ECons e pos, kw, ts)
          | _, [] => syntax_error
          end
      end
  end.

(** Enough fuel for a line of [ts]. *)
Definition fuel_for (ts : list token) : nat := (8 * length ts + 8)%nat.

Definition starts_expr (ts : list token) : bool :=
  match ts with
  | (TName _ | TInt _ | TNone | TTrue | TFalse | TLPar | TPlus | TMinus) :: _ => true
  | _ => false
  end.

(** The rest of an unparenthesised tuple after a comma. *)
Fixpoint parse_more (fuel : nat) (ts : list token) : res (exprs * list token) :=
  match fuel with
  | O => Beyond
  | S fuel' =>
      if starts_expr ts then
        '(e, ts) ← parse_expr fuel ts;
        match ts with
        | TComma :: ts => '(es, ts) ← parse_more fuel' ts; Ok (ECons e es, ts)
        | _ => Ok (ECons e ENil, ts)
        end
      else Ok (ENil, ts)
  end.

(** The right-hand side of an assignment or the operand of [return]:
    one expression, or a tuple written without parentheses. *)
Definition parse_testlist (ts : list token) : res (expr * list token) :=
  '(e, ts1) ← parse_expr (fuel_for ts) ts;
  match ts1 with
  | TComma :: ts2 =>
      '(es, ts3) ← parse_more (fuel_for ts) ts2;
      Ok (ETuple (ECons e es), ts3)
  | _ => Ok (e, ts1)
  end.

(** Parameters after the opening parenthesis: names separated by
    commas, a trailing comma allowed, no name twice. *)
Fixpoint parse_params (seen : list string) (ts : list token)
  : res (list string * list token) :=
  match ts with
  | TRPar :: ts => Ok ([], ts)
  | TName x :: ts =>
      if existsb (String.eqb x) seen then syntax_error
      else
        match ts with
        | TRPar :: ts => Ok ([x], ts)
        | TComma :: ts => '(xs, ts) ← parse_params (x :: seen) ts; Ok (x :: xs, ts)
        | (TEq | TColon) :: _ => Beyond
        | _ => syntax_error
        end
  | _ => syntax_error
  end.

Definition parse_header (ts : list token) : res (string * list string) :=
  match ts with
  | TDef :: TName f :: TLPar :: ts =>
      '(ps, ts) ← parse_params [] ts;
      match ts with
      | [TColon] => Ok (f, ps)
      | TColon :: _ => Beyond
      | _ => syntax_error
      end
  | _ => Beyond
  end.

Definition parse_stmt (ts : list token) : res stmt :=
  match ts with
  | TName x :: TEq :: ts =>
      '(e, ts) ← parse_testlist ts;
      match ts with
      | [] => Ok (SAssign x e)
      | TEq :: _ => Beyond
      | _ => syntax_error
      end
  | [TReturn] => Ok (SReturn None)
  | TReturn :: ts =>
      '(e, ts) ← parse_testlist ts;
      match ts with
      | [] => Ok (SReturn (Some e))
      | _ => syntax_error
      end
  | _ => Beyond
  end.

(** *** Lines and blocks *)

(** The leading spaces of a physical line, and what follows them. *)
Fixpoint indent_of (line : string) : nat * string :=
  match line with
  | String " " rest => let '(n, r) := indent_of rest in (S n, r)
  | _ => (O, line)
  end.

(** The non-blank lines of a text, each as its indentation and tokens.
    A line of more than 64 tokens leaves the fragment. *)
Fixpoint lex_lines (lines : list string) : option (list (nat * list token)) :=
  match lines with
  | [] => Some []
  | line :: rest =>
      let '(n, r) := indent_of line in
      match r with
      | EmptyString => lex_lines rest
      | _ =>
          ts ← lex r PNone;
          ls ← lex_lines rest;
          if (64 <? length ts)%nat then None else Some ((n, ts) :: ls)
      end
  end.

(** Brackets of one line: an unmatched closing one is an error; one
    left open continues the logical line, which the fragment excludes. *)
Fixpoint brackets (depth : nat) (ts : list token) : res unit :=
  match ts with
  | [] => match depth with O => Ok tt | S _ => Beyond end
  | TLPar :: ts => brackets (S depth) ts
  | TRPar :: ts => match depth with O => syntax_error | S d => brackets d ts end
  | _ :: ts => brackets depth ts
  end.

(** The text of a module made up of a single [def] with an indented
    body of simple statements. *)
Definition compile (text : string) : res pyfunc :=
  match lex_lines (Py.split Py.nl text) with
  | None => Beyond
  | Some ls =>
      _ ← mapM (fun l => brackets O (snd l)) ls;
      match ls with
      | (O, header) :: (S i, first) :: rest =>
          if forallb (fun l => Nat.eqb (fst l) (S i)) rest then
            '(f, ps) ← parse_header header;
            body ← mapM parse_stmt (first :: map snd rest);
            Ok {| f_name := f; f_params := ps; f_body := body |}
          else Beyond
      | _ => Beyond
      end
  end.

(** [exec(text, globals, loc_vars)] for such a text: the [def] binds the
    function's name in [loc_vars]. *)
Definition exec (text : string) (loc_vars : gmap string pyfunc)
  : res (gmap string pyfunc) :=
  f ← compile text;
  Ok (<[f_name f := f]> loc_vars).

(** *** Values *)

(** [VFloat t] is a float, as the exact number it denotes, in units of
    the smallest positive float.  [VOpaque what] is an object the
    fragment does not describe (a module, a class, a function other
    than [time.time]); [what] names it. *)
Inductive value :=
| VInt (n : Z)
| VNone
| VBool (b : bool)
| VFloat (t : Z)
| VTuple (vs : list value)
| VModuleTime
| VBuiltinTime
| VOpaque (what : string).

(** *** Evaluation

    The interpreter threads the number [n] of clock readings taken so
    far; [clock n] is what the next call of [time.time()] returns.
    [G] is the globals of the function, [B] the builtins of the
    interpreter, and [rn] the rounding of an exact difference of two
    floats to the float that the subtraction returns. *)

Section Eval.

Variable G : gmap string value.
Variable B : gmap string value.
Variable clock : nat -> Z.
Variable rn : Z -> Z.
Variable locals : list string.

(** A name the compiler made local is read from the frame only;
    any other name is read from the globals, then from the builtins. *)
Definition lookup_name (env : gmap string value) (x : string) : res value :=
  if existsb (String.eqb x) locals then
    match env !! x with
    | Some v => Ok v
    | None => Raise (UnboundLocalError x)
    end
  else
    match G !! x with
    | Some v => Ok v
    | None =>
        match B !! x with
        | Some v => Ok v
        | None => Raise (NameError x)
        end
    end.

Definition un_op (o : unop) (v : value) : res value :=
  match o, v with
  | Pos, VInt n => Ok (VInt n)
  | Neg, VInt n => Ok (VInt (- n))
  | _, _ => Beyond
  end.

Definition bin_op (o : binop) (a b : value) : res value :=
  match o, a, b with
  | Add, VInt x, VInt y => Ok (VInt (x + y))
  | Sub, VInt x, VInt y => Ok (VInt (x - y))
  | Sub, VFloat x, VFloat y => Ok (VFloat (rn (x - y)))
  | _, _, _ => Beyond
  end.

Definition get_attr (v : value) (a : string) : res value :=
  match v with
  | VModuleTime => if String.eqb a "time" then Ok VBuiltinTime else Beyond
  | _ => Beyond
  end.

(** [time.time] takes no argument; what calling an opaque object does
    is outside the fragment; no other value is callable. *)
Definition apply (f : value) (pos : list value) (kw : list (string * value))
    (n : nat) : res (value * nat) :=
  match f with
  | VBuiltinTime =>
      match pos, kw with
      | [], [] => Ok (VFloat (clock n), S n)
      | _, _ => Raise TypeError
      end
  | VOpaque _ => Beyond
  | _ => Raise TypeError
  end.

Fixpoint eval (env : gmap string value) (e : expr) (n : nat) {struct e}
  : res (value * nat) :=
  match e with
  | EName x => v ← lookup_name env x; Ok (v, n)
  | EInt k => Ok (VInt k, n)
  | ENone => Ok (VNone, n)
  | EBool b => Ok (VBool b, n)
  | EUn o e =>
      '(v, n) ← eval env e n;
      r ← un_op o v; Ok (r, n)
  | EBin o l r =>
      '(a, n) ← eval env l n;
      '(b, n) ← eval env r n;
      c ← bin_op o a b; Ok (c, n)
  | EAttr e a =>
      '(v, n) ← eval env e n;
      r ← get_attr v a; Ok (r, n)
  | ECall f pos kw =>
      '(vf, n) ← eval env f n;
      '(vs, n) ← eval_list env pos n;
      '(ks, n) ← eval_kw env kw n;
      apply vf vs ks n
  | ETuple es =>
      '(vs, n) ← eval_list env es n;
      Ok (VTuple vs, n)
  end

with eval_list (env : gmap string value) (es : exprs) (n : nat) {struct es}
  : res (list value * nat) :=
  match es with
  | ENil => Ok ([], n)
  | ECons e es =>
      '(v, n) ← eval env e n;
      '(vs, n) ← eval_list env es n;
      Ok (v :: vs, n)
  end

with eval_kw (env : gmap string value) (ks : kwargs) (n : nat) {struct ks}
  : res (list (string * value) * nat) :=
  match ks with
  | KNil => Ok ([], n)
  | KCons k e ks =>
      '(v, n) ← eval env e n;
      '(vs, n) ← eval_kw env ks n;
      Ok ((k, v) :: vs, n)
  end.

(** A block: assignments bind in the frame, the first [return] reached
    ends the call, falling off the end returns [None]. *)
Fixpoint exec_body (body : list stmt) (env : gmap string value) (n : nat)
  : res (value * nat) :=
  match body with
  | [] => Ok (VNone, n)
  | SAssign x e :: rest =>
      '(v, n) ← eval env e n;
      exec_body rest (<[x := v]> env) n
  | SReturn None :: _ => Ok (VNone, n)
  | SReturn (Some e) :: _ => eval env e n
  end.

End Eval.

(** The names a block assigns. *)
Fixpoint assigned (body : list stmt) : list string :=
  match body with
  | [] => []
  | SAssign x _ :: rest => x :: assigned rest
  | SReturn _ :: rest => assigned rest
  end.

(** The local names of a function: its parameters and every name its
    body assigns. *)
Definition local_names (f : pyfunc) : list string :=
  f_params f ++ assigned (f_body f).

(** The call of [f] on the positional arguments [args], with globals
    [G] and builtins [B], from the clock state [n]. *)
Definition call (G B : gmap string value) (clock : nat -> Z) (rn : Z -> Z)
    (f : pyfunc) (args : list value) (n : nat) : res (value * nat) :=
  if Nat.eqb (length args) (length (f_params f)) then
    exec_body G B clock rn (local_names f) (f_body f)
      (list_to_map (zip (f_params f) args)) n
  else Raise TypeError.

End PyLang.

Import PyLang.

(** ** Probe synthesis *)

(** The text [create_func] assembles: the f-string, with [None] rendered
    as an f-string renders it. *)
Definition func_text (func_name : string) (usecase_params : option string)
    (call_expr : string) : string :=
  Py.nl +:+ "def " +:+ func_name +:+ "(" +:+ Py.str_opt usecase_params +:+ "):" +:+ Py.nl +:+
  "  start_time = time.time()" +:+ Py.nl +:+
  "  res = " +:+ call_expr +:+ Py.nl +:+
  "  finish_time = time.time()" +:+ Py.nl +:+
  "  return finish_time - start_time, res" +:+ Py.nl.

Definition create_func (usecase_params : option string) (call_expr : string)
  : res pyfunc :=
  let func_name := "func" in
  let func_text := func_text func_name usecase_params call_expr in
  loc_vars ← exec func_text ∅;
  match loc_vars !! func_name with
  | Some func => Ok func
  | None => Raise (KeyError func_name)
  end.

(** The globals of the generator module, as its sources show them:
    [time] is the module the probe reads the clock from; the other
    imports, the two classes and the functions of the module are
    opaque, as are the attributes every module has.  The star import
    of [sdc.tests.test_utils] binds further names that the sources do
    not list; [skip_numba_jit], which [gen_test] uses, is one. *)
Definition module_globals : gmap string value :=
  <["time" := VModuleTime]>
    (list_to_map (map (fun x => (x, VOpaque x))
       ["np"; "NamedTuple"; "to_varname"; "skip_numba_jit";
        "CallExpression"; "TestCase"; "to_varname_without_excess_underscores";
        "skipna_cases"; "generate_test_cases"; "gen_params_wo_data";
        "gen_usecase_params"; "gen_call_expr"; "gen_test"; "create_func";
        "gen_usecase"; "__name__"; "__doc__"; "__package__"; "__loader__";
        "__spec__"; "__file__"; "__cached__"; "__builtins__"])).

(** The names of the [builtins] module of Python 3 (the keywords
    [None], [True], [False] and [__debug__] apart), all opaque. *)
Definition python_builtins : gmap string value :=
  list_to_map (map (fun x => (x, VOpaque x))
    ["ArithmeticError"; "AssertionError"; "AttributeError"; "BaseException";
     "BaseExceptionGroup"; "BlockingIOError"; "BrokenPipeError"; "BufferError";
     "BytesWarning"; "ChildProcessError"; "ConnectionAbortedError";
     "ConnectionError"; "ConnectionRefusedError"; "ConnectionResetError";
     "DeprecationWarning"; "EOFError"; "Ellipsis"; "EncodingWarning";
     "EnvironmentError"; "Exception"; "ExceptionGroup"; "FileExistsError";
     "FileNotFoundError"; "FloatingPointError"; "FutureWarning";
     "GeneratorExit"; "IOError"; "ImportError"; "ImportWarning";
     "IndentationError"; "IndexError"; "InterruptedError"; "IsADirectoryError";
     "KeyError"; "KeyboardInterrupt"; "LookupError"; "MemoryError";
     "ModuleNotFoundError"; "NameError"; "NotADirectoryError"; "NotImplemented";
     "NotImplementedError"; "OSError"; "OverflowError";
     "PendingDeprecationWarning"; "PermissionError"; "ProcessLookupError";
     "PythonFinalizationError"; "RecursionError"; "ReferenceError";
     "ResourceWarning"; "RuntimeError"; "RuntimeWarning"; "StopAsyncIteration";
     "StopIteration"; "SyntaxError"; "SyntaxWarning"; "SystemError";
     "SystemExit"; "TabError"; "TimeoutError"; "TypeError";
     "UnboundLocalError"; "UnicodeDecodeError"; "UnicodeEncodeError";
     "UnicodeError"; "UnicodeTranslateError"; "UnicodeWarning"; "UserWarning";
     "ValueError"; "Warning"; "WindowsError"; "ZeroDivisionError";
     "_IncompleteInputError"; "__build_class__"; "__doc__"; "__import__";
     "__loader__"; "__name__"; "__package__"; "__spec__"; "abs"; "aiter";
     "all"; "anext"; "any"; "ascii"; "bin"; "bool"; "breakpoint"; "bytearray";
     "bytes"; "callable"; "chr"; "classmethod"; "compile"; "complex";
     "copyright"; "credits"; "delattr"; "dict"; "dir"; "divmod"; "enumerate";
     "eval"; "exec"; "exit"; "filter"; "float"; "format"; "frozenset";
     "getattr"; "globals"; "hasattr"; "hash"; "help"; "hex"; "id"; "input";
     "int"; "isinstance"; "issubclass"; "iter"; "len"; "license"; "list";
     "locals"; "map"; "max"; "memoryview"; "min"; "next"; "object"; "oct";
     "open"; "ord"; "pow"; "print"; "property"; "quit"; "range"; "repr";
     "reversed"; "round"; "set"; "setattr"; "slice"; "sorted"; "staticmethod";
     "str"; "sum"; "super"; "tuple"; "type"; "vars"; "zip"]).

(** ** Probe factory *)

(** One entry of the list [gen_usecase] builds for a multi-channel
    case: the dict with keys [func], [type_] and [jitted]. *)
Record probe_record := {
  func : pyfunc;
  rec_type_ : string;
  rec_jitted : bool
}.

(** What [gen_usecase] returns: a bare function, or a list of records. *)
Inductive usecase :=
| UFunc (f : pyfunc)
| URecords (rs : list probe_record).

(** The values of the locals [usecase_params] and [call_expr] of
    [gen_usecase] once the defaults are filled in. *)
Definition usecase_inputs (test_case : TestCase) (prefix : string)
  : option string * call_expr_t :=
  let usecase_params := usecase_params test_case in
  let call_expr := call_expr test_case in
  match call_expr with
  | None =>
      let usecase_params :=
        match usecase_params with
        | None => Some (gen_usecase_params test_case)
        | Some _ => usecase_params
        end in
      (usecase_params, CEStr (gen_call_expr test_case prefix))
  | Some call_expr => (usecase_params, call_expr)
  end.

Definition gen_usecase (test_case : TestCase) (prefix : string) : res usecase :=
  let '(usecase_params, call_expr) := usecase_inputs test_case prefix in
  match call_expr with
  | CEList l =>
      results ← mapM (fun ce =>
                        f ← create_func usecase_params (code ce);
                        Ok {| func := f; rec_type_ := type_ ce;
                              rec_jitted := jitted ce |}) l;
      Ok (URecords results)
  | CEStr call_expr =>
      func ← create_func usecase_params call_expr;
      Ok (UFunc func)
  end.

(** ** Test methods *)

(** The keyword arguments a test method passes to [self._test_case]. *)
Record entry_args := {
  arg_usecase : usecase;
  arg_name : string;
  arg_total_data_length : list Z;
  arg_data_num : Z;
  arg_data_gens : option (list data_gen);
  arg_input_data : option (list Z)
}.

(** A test method: the closure [func] of [gen_test], which calls the
    harness entry point on the values it closes over, or such a method
    under the skip decorator. *)
Inductive method :=
| MFunc (a : entry_args)
| MSkip (m : method).

(** Modelled from the spec: [skip_numba_jit] of [sdc.tests.test_utils],
    which is not part of the sources.  The spec (4.7) has the wrapped
    method report a skipped outcome without invoking what it wraps. *)
Definition skip_numba_jit (m : method) : method := MSkip m.

Definition gen_test (test_case : TestCase) (prefix : string) : res method :=
  usecase ← gen_usecase test_case prefix;
  let test_name := name test_case in
  let test_name :=
    if Py.truthy (params test_case)
    then test_name +:+ "(" +:+ params test_case +:+ ")"
    else test_name in
  let func :=
    MFunc {| arg_usecase := usecase; arg_name := test_name;
             arg_total_data_length := size test_case;
             arg_data_num := data_num test_case;
             arg_data_gens := data_gens test_case;
             arg_input_data := input_data test_case |} in
  let func := if skip test_case then skip_numba_jit func else func in
  Ok func.

(** What the test runner sees of one method invocation. *)
Inductive outcome :=
| Finished (r : res unit)
| Skipped.

Section Harness.

(** The harness owning [_test_case]: its state, and the entry point as
    a transformer of that state.  Probes are invoked by the entry
    point only. *)
Variable H : Type.
Variable test_case_entry : entry_args -> H -> H * res unit.

Definition invoke (m : method) (h : H) : H * outcome :=
  match m with
  | MFunc a => let '(h', r) := test_case_entry a h in (h', Finished r)
  | MSkip _ => (h, Skipped)
  end.

End Harness.

(** ** Registration *)

Definition is_word_char (c : ascii) : bool := is_letter c || is_digit c.

(** Modelled from the spec: [to_varname] of [sdc.io.csv_ext], which is
    not part of the sources.  The spec (4.3) maps every character
    outside the identifier alphabet to the separator [_]. *)
Fixpoint to_varname (s : string) : string :=
  match s with
  | EmptyString => EmptyString
  | String c s' => String (if is_word_char c then c else "_"%char) (to_varname s')
  end.

Definition to_varname_without_excess_underscores (s : string) : string :=
  Py.join "_" (filter (fun i => Is_true (Py.truthy i)) (Py.split "_" (to_varname s))).

(** The identifier [generate_test_cases] attaches a case under. *)
Definition test_name_of (test_case : TestCase) (typ prefix : string) : string :=
  let test_name_parts :=
    ["test"; typ; prefix; name test_case; gen_params_wo_data test_case] in
  to_varname_without_excess_underscores (Py.join "_" test_name_parts).

(** The loop of [generate_test_cases] over the expanded cases.  The
    class is its attribute dictionary; [setattr] is an insertion.  An
    exception leaves the loop with the attachments made so far. *)
Fixpoint attach_all (cases : list TestCase) (class_add : gmap string method)
    (typ prefix : string) : gmap string method * res unit :=
  match cases with
  | [] => (class_add, Ok tt)
  | test_case :: rest =>
      let test_name := test_name_of test_case typ prefix in
      match gen_test test_case prefix with
      | Ok m => attach_all rest (<[test_name := m]> class_add) typ prefix
      | Raise e => (class_add, Raise e)
      | Beyond => (class_add, Beyond)
      end
  end.

Definition generate_test_cases (cases : list TestCase)
    (class_add : gmap string method) (typ prefix : string)
  : gmap string method * res unit :=
  attach_all (skipna_cases cases) class_add typ prefix.

(** * Sample inputs and specification-side definitions *)

(** A descriptor with the defaults of [TestCase] for the fields not
    given. *)
Definition TC (n p : string) (dn : Z) (dg : option (list data_gen)) : TestCase :=
  {| name := n; size := [10]; params := p; call_expr := None;
     usecase_params := None; input_data := None; data_num := dn;
     data_gens := dg; skip := false; check_skipna := false |}.

(** [params] with one more parameter, as the spec words it. *)
Definition append_param (p extra : string) : string :=
  match p with
  | EmptyString => extra
  | _ => p +:+ ", " +:+ extra
  end.

(** Two descriptors that agree on every field but [params]. *)
Definition same_but_params (d v : TestCase) : Prop :=
  name v = name d /\ size v = size d /\ call_expr v = call_expr d /\
  usecase_params v = usecase_params d /\ input_data v = input_data d /\
  data_num v = data_num d /\ data_gens v = data_gens d /\
  skip v = skip d /\ check_skipna v = check_skipna d.

(** The width as the spec states it. *)
Definition partition_width (d : TestCase) : Z :=
  match data_gens d with
  | Some gens => Z.of_nat (length gens)
  | None => Z.max (data_num d - 1) 0
  end.

(** The end-to-end case of the spec. *)
Definition sum_case : TestCase := TC "sum" "" 1 None.

(** A multi-channel case whose list of channels is empty. *)
Definition no_channel_case : TestCase :=
  {| name := "add"; size := [10]; params := "other"; call_expr := Some (CEList []);
     usecase_params := Some "data, other"; input_data := None; data_num := 2;
     data_gens := None; skip := false; check_skipna := false |}.

(** The three-channel comparison of the spec's test list. *)
Definition three_channel_case : TestCase :=
  {| name := "add"; size := [10]; params := "other";
     call_expr := Some (CEList [
       {| code := "data + other"; type_ := "Python"; jitted := false |};
       {| code := "data + other"; type_ := "Numba"; jitted := true |};
       {| code := "data + other"; type_ := "SDC"; jitted := true |}]);
     usecase_params := Some "data, other"; input_data := None; data_num := 2;
     data_gens := None; skip := false; check_skipna := false |}.

(** Two cases a table may well hold together: [shift(1)] and
    [shift(-1)]. *)
Definition shift_forward : TestCase := TC "shift" "1" 1 None.
Definition shift_backward : TestCase := TC "shift" "-1" 1 None.

(** A stub entry point that counts its calls. *)
Definition counting_entry (a : entry_args) (calls : nat) : nat * res unit :=
  (S calls, Ok tt).

(** A [sum] case marked to be skipped. *)
Definition skipped_case : TestCase :=
  {| name := "sum"; size := [10]; params := ""; call_expr := None;
     usecase_params := None; input_data := None; data_num := 1;
     data_gens := None; skip := true; check_skipna := false |}.

(** [s] holds no line break. *)
Fixpoint no_newline (s : string) : bool :=
  match s with
  | EmptyString => true
  | String c s' => negb (Ascii.eqb c (ascii_of_nat 10)) && no_newline s'
  end.

(** What [compile] does with the lines that follow a header already
    lexed to [toks]. *)
Definition compile_after (toks : list token) (rest : string) : res pyfunc :=
  match lex_lines (Py.split Py.nl rest) with
  | None => Beyond
  | Some ls =>
      _ ← mapM (fun l => brackets O (snd l)) ((O, toks) :: ls);
      match ls with
      | (S i, first) :: more =>
          if forallb (fun l => Nat.eqb (fst l) (S i)) more then
            '(f, ps) ← parse_header toks;
            body ← mapM parse_stmt (first :: map snd more);
            Ok {| f_name := f; f_params := ps; f_body := body |}
          else Beyond
      | _ => Beyond
      end
  end.

(** The lines of the probe after its header. *)
Definition probe_block (call_expr : string) : string :=
  "  start_time = time.time()" +:+ Py.nl +:+
  "  res = " +:+ call_expr +:+ Py.nl +:+
  "  finish_time = time.time()" +:+ Py.nl +:+
  "  return finish_time - start_time, res" +:+ Py.nl.

(** The statements of the probe template around a call expression. *)
Definition time_call : expr := ECall (EAttr (EName "time") "time") ENil KNil.

Definition probe_body (e : expr) : list stmt :=
  [SAssign "start_time" time_call;
   SAssign "res" e;
   SAssign "finish_time" time_call;
   SReturn (Some (ETuple
     (ECons (EBin Sub (EName "finish_time") (EName "start_time"))
        (ECons (EName "res") ENil))))].

(** The tokens of the fixed lines of the template. *)
Definition start_tokens : list token :=
  [TName "start_time"; TEq; TName "time"; TDot; TName "time"; TLPar; TRPar].
Definition finish_tokens : list token :=
  [TName "finish_time"; TEq; TName "time"; TDot; TName "time"; TLPar; TRPar].
Definition return_tokens : list token :=
  [TReturn; TName "finish_time"; TMinus; TName "start_time"; TComma; TName "res"].

(** Mutual induction over the three syntactic classes. *)
Scheme expr_mind := Induction for expr Sort Prop
  with exprs_mind := Induction for exprs Sort Prop
  with kwargs_mind := Induction for kwargs Sort Prop.
Combined Scheme syntax_mutind from expr_mind, exprs_mind, kwargs_mind.

(** The names an expression reads. *)
Fixpoint names (e : expr) : list string :=
  match e with
  | EName x => [x]
  | EInt _ | ENone | EBool _ => []
  | EUn _ e => names e
  | EBin _ l r => names l ++ names r
  | EAttr e _ => names e
  | ECall f pos kw => names f ++ names_list pos ++ names_kw kw
  | ETuple es => names_list es
  end
with names_list (es : exprs) : list string :=
  match es with
  | ENil => []
  | ECons e es => names e ++ names_list es
  end
with names_kw (ks : kwargs) : list string :=
  match ks with
  | KNil => []
  | KCons _ e ks => names e ++ names_kw ks
  end.

(** A clock that ticks once per reading. *)
Definition sample_clock (n : nat) : Z := Z.of_nat n.

(** The function [create_func] builds from ["data, other"] and
    ["data + other"]. *)
Definition add_probe : pyfunc :=
  {| f_name := "func"; f_params := ["data"; "other"];
     f_body := probe_body (EBin Add (EName "data") (EName "other")) |}.


(** The signature as the spec derives it. *)
Definition claimed_signature (d : TestCase) : string :=
  match usecase_params d with
  | Some u => u
  | None => Py.join ", " ("data" :: extra_usecase_params d)
  end.

(** A case with an explicit expression and no explicit signature. *)
Definition explicit_expr_case : TestCase :=
  {| name := "add"; size := [10]; params := "other";
     call_expr := Some (CEStr "data + other");
     usecase_params := None; input_data := None; data_num := 2;
     data_gens := None; skip := false; check_skipna := false |}.

(** [add] with two data arguments and no literal parameter. *)
Definition two_data_case : TestCase := TC "add" "" 2 None.

(** A case marked to be skipped whose expression is malformed. *)
Definition broken_case : TestCase :=
  {| name := "add"; size := [10]; params := "other";
     call_expr := Some (CEStr "data +");
     usecase_params := Some "data, other"; input_data := None; data_num := 2;
     data_gens := None; skip := true; check_skipna := false |}.

(** [s] is empty, or starts with a character other than [_] and has a
    character other than [_] after each [_]: no leading, trailing or
    doubled underscore.  [after] tells whether the last character read
    was an underscore (or nothing was read yet). *)
Fixpoint tidy_go (after : bool) (s : string) : bool :=
  match s with
  | EmptyString => negb after
  | String c s' =>
      if Ascii.eqb c "_" then negb after && tidy_go true s'
      else tidy_go false s'
  end.

Definition no_excess_underscores (s : string) : bool :=
  match s with
  | EmptyString => true
  | _ => tidy_go true s
  end.

(** [s] holds no underscore. *)
Fixpoint no_underscore (s : string) : bool :=
  match s with
  | EmptyString => true
  | String c s' => negb (Ascii.eqb c "_") && no_underscore s'
  end.

(** A three-channel case whose second channel is malformed. *)
Definition broken_channel_case : TestCase :=
  {| name := "add"; size := [10]; params := "other";
     call_expr := Some (CEList [
       {| code := "data + other"; type_ := "Python"; jitted := false |};
       {| code := "data +"; type_ := "Numba"; jitted := true |};
       {| code := "data + other"; type_ := "SDC"; jitted := true |}]);
     usecase_params := Some "data, other"; input_data := None; data_num := 2;
     data_gens := None; skip := false; check_skipna := false |}.

(** The function the probe template defines, with parameters [ps]
    around the call expression [e]. *)
Definition probe_of (ps : list string) (e : expr) : pyfunc :=
  {| f_name := "func"; f_params := ps; f_body := probe_body e |}.

(** What follows the opening parenthesis of a [def] header: the
    parameters, the closing parenthesis, the colon. *)
Definition header_part (hts : list token) : res (list string) :=
  '(ps, rest) ← parse_params [] hts;
  match rest with
  | [TColon] => Ok ps
  | TColon :: _ => Beyond
  | _ => syntax_error
  end.

(** What follows [res =] on its line: one expression, or a tuple
    without parentheses, up to the end of the line. *)
Definition body_part (post : list token) : res expr :=
  '(e, rest) ← parse_testlist post;
  match rest with
  | [] => Ok e
  | TEq :: _ => Beyond
  | _ => syntax_error
  end.

(** The signature text on its own, read as what stands between
    [def func(] and the end of the header line: its parameters when it
    is a list of plain names, a syntax error, or [Beyond]. *)
Definition signature_syntax (signature : string) : res (list string) :=
  match lex (signature +:+ "):") PNone with
  | None => Beyond
  | Some hts =>
      if (64 <? length (TDef :: TName "func" :: TLPar :: hts))%nat then Beyond
      else _ ← brackets 1 hts; header_part hts
  end.

(** The call-expression text on its own, read as the right-hand side
    of the assignment to [res]: its syntax tree, a syntax error, or
    [Beyond]. *)
Definition expression_syntax (call_expr : string) : res expr :=
  match lex call_expr PNone with
  | None => Beyond
  | Some post =>
      if (64 <? length (TName "res" :: TEq :: post))%nat then Beyond
      else _ ← brackets 0 post; body_part post
  end.

(** A text the fragment decides: it parses, or it is a syntax error. *)
Definition decided {A} (r : res A) : Prop :=
  (exists a, r = Ok a) \/ r = Raise SyntaxError.

(** The rounding of a difference that is a float itself. *)
Definition exact (z : Z) : Z := z.

(** A flagged case without parameters, and one with a parameter. *)
Definition flagged_sum : TestCase :=
  {| name := "sum"; size := [10]; params := ""; call_expr := None;
     usecase_params := None; input_data := None; data_num := 1;
     data_gens := None; skip := false; check_skipna := true |}.
Definition flagged_std : TestCase :=
  {| name := "std"; size := [10]; params := "ddof=0"; call_expr := None;
     usecase_params := None; input_data := None; data_num := 1;
     data_gens := None; skip := false; check_skipna := true |}.

(** The last case of [l] attached under [id], if any. *)
Definition registered_last (l : list TestCase) (typ prefix id : string)
  : option TestCase :=
  List.find (fun c => String.eqb (test_name_of c typ prefix) id) (rev l).

(** * Properties *)

(** ** Variant expansion (C4) *)

Lemma skipna_cases_app l1 l2 :
  skipna_cases (l1 ++ l2) = skipna_cases l1 ++ skipna_cases l2.
Proof.
  induction l1 as [|c l1 IH]; simpl; [reflexivity|].
  rewrite IH. destruct (check_skipna c); simpl; reflexivity.
Qed.

Lemma append_assoc (a b c : string) : (a +:+ b) +:+ c = a +:+ b +:+ c.
Proof.
  induction a as [|x a IH]; [reflexivity|].
  change (String x ((a +:+ b) +:+ c) = String x (a +:+ b +:+ c)).
  now rewrite IH.
Qed.

Lemma skipna_variant_params d b :
  skipna_variant d b
    = replace_params d (append_param (params d) ("skipna=" +:+ Py.str_bool b)).
Proof.
  unfold skipna_variant. destruct (params d) as [|c p]; [reflexivity|].
  cbv zeta. cbn [Py.truthy append_param]. now rewrite append_assoc.
Qed.

(** C4. A descriptor with [check_skipna] set is replaced, at its place
    in the sequence, by two copies whose [params] are those of the
    descriptor with [skipna=True] and then [skipna=False] appended
    (after a comma and a space when they are not empty), every other
    field kept; a descriptor without it is passed through as it is.
    Descriptors are immutable tuples, so the source one is not
    touched. *)
Theorem skipna_cases_expands (before after : list TestCase) (d : TestCase) :
  skipna_cases (before ++ d :: after)
    = skipna_cases before ++ skipna_cases [d] ++ skipna_cases after
  /\ skipna_cases [d]
    = (if check_skipna d
       then [replace_params d (append_param (params d) "skipna=True");
             replace_params d (append_param (params d) "skipna=False")]
       else [d])
  /\ map params (skipna_cases [d])
    = (if check_skipna d
       then [append_param (params d) "skipna=True";
             append_param (params d) "skipna=False"]
       else [params d])
  /\ Forall (same_but_params d) (skipna_cases [d]).
Proof.
  assert (E : skipna_cases [d]
    = (if check_skipna d
       then [replace_params d (append_param (params d) "skipna=True");
             replace_params d (append_param (params d) "skipna=False")]
       else [d])).
  { cbn [skipna_cases]. destruct (check_skipna d); [|reflexivity].
    cbn [map app]. now rewrite !skipna_variant_params. }
  split; [|split; [exact E|split]].
  - rewrite skipna_cases_app.
    change (d :: after) with ([d] ++ after).
    now rewrite skipna_cases_app.
  - rewrite E. destruct (check_skipna d); reflexivity.
  - rewrite E. destruct (check_skipna d); repeat constructor; reflexivity.
Qed.

(** The theorem at a table with two flagged cases. *)
Lemma skipna_cases_expands_flagged :
  map params (skipna_cases [sum_case; flagged_std; flagged_sum])
    = [""; "ddof=0, skipna=True"; "ddof=0, skipna=False";
       "skipna=True"; "skipna=False"]
  /\ map name (skipna_cases [sum_case; flagged_std; flagged_sum])
    = ["sum"; "std"; "std"; "sum"; "sum"].
Proof.
  destruct (skipna_cases_expands [sum_case] [flagged_sum] flagged_std)
    as (Hpos & _ & Hp & _).
  destruct (skipna_cases_expands [] [] flagged_sum) as (_ & _ & Hp' & _).
  change ([sum_case; flagged_std; flagged_sum])
    with ([sum_case] ++ flagged_std :: [flagged_sum]).
  rewrite Hpos. rewrite !map_app, Hp, Hp'. split; reflexivity.
Defined.

(** ** Parameter partition (C5) *)

Lemma slice_to_nonneg {A} (k : Z) (l : list A) :
  0 <= k -> Py.slice_to k l = take (Z.to_nat k) l.
Proof.
  intros Hk. unfold Py.slice_to, Py.bound.
  destruct (Z.ltb_spec k 0); [lia|].
  destruct (Nat.le_gt_cases (Z.to_nat k) (length l)).
  - now rewrite Nat.min_l.
  - rewrite Nat.min_r by lia. rewrite !take_ge; [reflexivity | lia | lia].
Qed.

Lemma slice_from_nonneg {A} (k : Z) (l : list A) :
  0 <= k -> Py.slice_from k l = drop (Z.to_nat k) l.
Proof.
  intros Hk. unfold Py.slice_from, Py.bound.
  destruct (Z.ltb_spec k 0); [lia|].
  destruct (Nat.le_gt_cases (Z.to_nat k) (length l)).
  - now rewrite Nat.min_l.
  - rewrite Nat.min_r by lia. rewrite !drop_ge; [reflexivity | lia | lia].
Qed.

(** C5, as stated, fails below [data_num] = 1.  With [data_num] = 0
    the claimed width is max(-1, 0) = 0, which would leave every token
    literal; the code slices at -1, so all tokens but the last are
    taken as data. *)
Lemma width_is_not_clamped :
  partition_width (TC "add" "x, y, z" 0 None) = 0
  /\ extra_usecase_params (TC "add" "x, y, z" 0 None) = ["x"; "y"]
  /\ method_params (TC "add" "x, y, z" 0 None) = ["z"]
  /\ extra_usecase_params (TC "add" "x, y, z" 0 None)
     <> take (Z.to_nat (partition_width (TC "add" "x, y, z" 0 None)))
          (Py.split ", " (params (TC "add" "x, y, z" 0 None)))
  /\ method_params (TC "add" "x, y, z" 0 None)
     <> drop (Z.to_nat (partition_width (TC "add" "x, y, z" 0 None)))
          (Py.split ", " (params (TC "add" "x, y, z" 0 None))).
Proof. repeat split; try reflexivity; vm_compute; discriminate. Qed.

Lemma bound_negative (len : nat) (k : Z) :
  k < 0 -> Py.bound len k = (len - Z.to_nat (- k))%nat.
Proof. intros Hk. unfold Py.bound. destruct (Z.ltb_spec k 0); lia. Qed.

(** C5, amended.  The width is [len(data_gens)] when [data_gens] is
    present, whatever [data_num] is, and [data_num - 1] otherwise.  For
    [data_num] at least 1 that is max([data_num] - 1, 0), and the first
    [width] pieces of [params] cut at [", "] are the extra data tokens,
    the others the literal tokens.  There is no clamp at 0: for
    [data_num] below 1 the width is negative and the cut is counted
    from the end, the last 1 - [data_num] tokens being the literal
    ones.  The two helpers join the two parts back. *)
Theorem partition_by_width (d : TestCase) :
  let tokens := Py.split ", " (params d) in
  match data_gens d with
  | Some gens =>
      extra_usecase_params d = take (length gens) tokens
      /\ method_params d = drop (length gens) tokens
  | None =>
      if 1 <=? data_num d
      then extra_usecase_params d = take (Z.to_nat (Z.max (data_num d - 1) 0)) tokens
           /\ method_params d = drop (Z.to_nat (Z.max (data_num d - 1) 0)) tokens
      else extra_usecase_params d
             = take (length tokens - Z.to_nat (1 - data_num d)) tokens
           /\ method_params d
             = drop (length tokens - Z.to_nat (1 - data_num d)) tokens
  end
  /\ gen_usecase_params d = Py.join ", " ("data" :: extra_usecase_params d)
  /\ gen_params_wo_data d = Py.join ", " (method_params d).
Proof.
  intros tokens. split; [|split; reflexivity].
  unfold extra_usecase_params, method_params, extra_data_num. fold tokens.
  destruct (data_gens d) as [gens|].
  - rewrite slice_to_nonneg, slice_from_nonneg by lia.
    rewrite Nat2Z.id. split; reflexivity.
  - destruct (Z.leb_spec 1 (data_num d)).
    + rewrite slice_to_nonneg, slice_from_nonneg by lia.
      rewrite Z.max_l by lia. split; reflexivity.
    + unfold Py.slice_to, Py.slice_from. rewrite bound_negative by lia.
      replace (- (data_num d - 1)) with (1 - data_num d) by lia.
      split; reflexivity.
Qed.

(** The three partitions the spec lists, each read off the theorem. *)
Lemma partition_by_width_examples :
  (extra_usecase_params (TC "add" "x, y, z" 3 None) = ["x"; "y"]
   /\ method_params (TC "add" "x, y, z" 3 None) = ["z"])
  /\ (extra_usecase_params (TC "add" "x, y, z" 1 None) = []
      /\ method_params (TC "add" "x, y, z" 1 None) = ["x"; "y"; "z"])
  /\ length (extra_usecase_params (TC "add" "x, y, z" 5 (Some ["g1"; "g2"]))) = 2%nat.
Proof.
  pose proof (proj1 (partition_by_width (TC "add" "x, y, z" 3 None))) as H3.
  pose proof (proj1 (partition_by_width (TC "add" "x, y, z" 1 None))) as H1.
  pose proof (proj1 (partition_by_width (TC "add" "x, y, z" 5 (Some ["g1"; "g2"]))))
    as H5.
  cbn [data_gens data_num TC Z.leb Z.compare Pos.compare Pos.compare_cont] in H3, H1, H5.
  destruct H3 as [E3 M3], H1 as [E1 M1], H5 as [E5 _].
  rewrite E3, M3, E1, M1, E5. repeat split.
Defined.

(** ** Default call expression (C8) *)

(** C8. The default expression is ["data"], the prefix when it is not
    empty, and ["<name>(<params>)"], joined by dots; it is the expression
    [gen_usecase] synthesizes from when [call_expr] is absent. *)
Theorem gen_call_expr_default (d : TestCase) (prefix : string) :
  gen_call_expr d prefix
    = match prefix with
      | EmptyString => "data." +:+ name d +:+ "(" +:+ params d +:+ ")"
      | _ => "data." +:+ prefix +:+ "." +:+ name d +:+ "(" +:+ params d +:+ ")"
      end
  /\ match call_expr d with
     | None => snd (usecase_inputs d prefix) = CEStr (gen_call_expr d prefix)
     | Some ce => snd (usecase_inputs d prefix) = ce
     end
  /\ gen_call_expr (TC "sum" "" 1 None) "" = "data.sum()"
  /\ gen_call_expr (TC "contains" "'a'" 1 None) "str" = "data.str.contains('a')".
Proof.
  split; [|split; [|split; reflexivity]].
  - unfold gen_call_expr. destruct prefix; reflexivity.
  - unfold usecase_inputs. destruct (call_expr d); reflexivity.
Qed.

(** ** Results of the [res] monad *)

Lemma bind_Ok {A B} (m : res A) (f : A -> res B) (b : B) :
  mbind f m = Ok b -> exists a, m = Ok a /\ f a = Ok b.
Proof. destruct m; simpl; intros E; try discriminate. eauto. Qed.

Lemma bind_not_ok {A B} (m : res A) (f : A -> res B) :
  is_ok m = false -> is_ok (mbind f m) = false.
Proof. destruct m; simpl; intros E; [discriminate | reflexivity | reflexivity]. Qed.

Lemma mapM_Ok {A B} (f : A -> res B) (l : list A) (rs : list B) :
  mapM f l = Ok rs -> Forall2 (fun x y => f x = Ok y) l rs.
Proof.
  revert rs. induction l as [|x l IH]; intros rs E.
  - simpl in E. injection E as <-. constructor.
  - simpl in E. apply bind_Ok in E as (y & Hy & E).
    apply bind_Ok in E as (k & Hk & E).
    injection E as <-. constructor; auto.
Qed.

(** ** Probe factory: what [gen_usecase] returns (C2) *)

(** C2, as stated, fails twice.  For the default single-channel case
    [gen_usecase] returns the bare function, not a sequence holding one
    record tagged ["default"]; and for an empty list of channels it
    returns the empty list. *)
Lemma gen_usecase_not_records :
  (forall rs, gen_usecase sum_case "" <> Ok (URecords rs))
  /\ is_ok (gen_usecase sum_case "") = true
  /\ gen_usecase no_channel_case "" = Ok (URecords []).
Proof.
  split; [|split].
  - intros rs. vm_compute. discriminate.
  - vm_compute. reflexivity.
  - vm_compute. reflexivity.
Qed.

(** C2, amended.  Whenever [gen_usecase] returns, the result is the bare
    synthesized function when [call_expr] is absent or a string, and,
    when [call_expr] is a list of [k] entries, a list of exactly [k]
    records in input order, each carrying its entry's [type_] and
    [jitted] and a function synthesized from that entry's code, all
    from the same signature. *)
Theorem gen_usecase_shape (d : TestCase) (prefix : string) (u : usecase) :
  gen_usecase d prefix = Ok u ->
  let signature := fst (usecase_inputs d prefix) in
  match call_expr d with
  | None =>
      exists f, u = UFunc f
        /\ create_func signature (gen_call_expr d prefix) = Ok f
  | Some (CEStr s) =>
      exists f, u = UFunc f /\ create_func signature s = Ok f
  | Some (CEList l) =>
      exists rs, u = URecords rs
        /\ length rs = length l
        /\ Forall2 (fun ce r =>
                      create_func signature (code ce) = Ok (func r)
                      /\ rec_type_ r = type_ ce
                      /\ rec_jitted r = jitted ce) l rs
  end.
Proof.
  unfold gen_usecase, usecase_inputs.
  destruct (call_expr d) as [[s|l]|]; simpl; intros E.
  - apply bind_Ok in E as (f & Hf & E). injection E as <-. eauto.
  - apply bind_Ok in E as (rs & Hrs & E). injection E as <-.
    exists rs. apply mapM_Ok in Hrs. split; [reflexivity|]. split.
    + symmetry. eapply Forall2_length, Hrs.
    + eapply Forall2_impl; [exact Hrs|].
      intros ce r Hr. simpl in Hr.
      apply bind_Ok in Hr as (f & Hf & Hr). injection Hr as <-.
      simpl. auto.
  - apply bind_Ok in E as (f & Hf & E). injection E as <-. eauto.
Qed.

(** The theorem at the three-channel case: three records, tagged in
    input order. *)
Lemma gen_usecase_shape_three_channels :
  exists rs,
    gen_usecase three_channel_case "" = Ok (URecords rs)
    /\ length rs = 3%nat
    /\ map rec_type_ rs = ["Python"; "Numba"; "SDC"]
    /\ map rec_jitted rs = [false; true; true].
Proof.
  destruct (gen_usecase three_channel_case "") as [u| |] eqn:E;
    [|vm_compute in E; discriminate E..].
  destruct (gen_usecase_shape _ _ _ E) as (rs & -> & Hlen & HF).
  exists rs. split; [reflexivity|]. split; [exact Hlen|].
  inversion HF as [|? r1 ? l1 (_ & T1 & J1) HF1]; subst.
  inversion HF1 as [|? r2 ? l2 (_ & T2 & J2) HF2]; subst.
  inversion HF2 as [|? r3 ? l3 (_ & T3 & J3) HF3]; subst.
  inversion HF3; subst. cbn [map].
  rewrite T1, T2, T3, J1, J2, J3. split; reflexivity.
Defined.

(** ** Registration: colliding identifiers (C3) *)

Lemma attach_all_app (l1 l2 : list TestCase) (cls : gmap string method) typ prefix :
  attach_all (l1 ++ l2) cls typ prefix
    = match attach_all l1 cls typ prefix with
      | (cls1, Ok _) => attach_all l2 cls1 typ prefix
      | failed => failed
      end.
Proof.
  revert cls. induction l1 as [|c l1 IH]; intros cls; cbn [attach_all app];
    [reflexivity|].
  destruct (gen_test c prefix); [apply IH | reflexivity | reflexivity].
Qed.

Lemma attach_all_succeeds (l : list TestCase) (cls : gmap string method) typ prefix :
  Forall (fun c => is_ok (gen_test c prefix) = true) l ->
  snd (attach_all l cls typ prefix) = Ok tt.
Proof.
  intros HF. revert cls.
  induction HF as [|c l Hc HF IH]; intros cls; cbn [attach_all].
  - reflexivity.
  - destruct (gen_test c prefix); [apply IH | discriminate Hc | discriminate Hc].
Qed.

(** C3, as stated, fails.  The two cases get the same identifier;
    registering both raises nothing, and the class ends with a single
    method under it, that of the later case: the earlier one is
    replaced silently. *)
Lemma collision_overwrites :
  test_name_of shift_forward "series" "" = "test_series_shift_1"
  /\ test_name_of shift_backward "series" "" = "test_series_shift_1"
  /\ is_ok (gen_test shift_forward "") = true
  /\ gen_test shift_forward "" <> gen_test shift_backward ""
  /\ let result :=
       generate_test_cases [shift_forward; shift_backward] ∅ "series" "" in
     snd result = Ok tt
     /\ Ok (fst result !! "test_series_shift_1")
        = (m ← gen_test shift_backward ""; Ok (Some m))
     /\ base.size (fst result) = 1%nat.
Proof.
  split; [vm_compute; reflexivity|].
  split; [vm_compute; reflexivity|].
  split; [vm_compute; reflexivity|].
  split; [vm_compute; discriminate|].
  cbv zeta.
  split; [vm_compute; reflexivity|].
  split; [vm_compute; reflexivity|].
  vm_compute; reflexivity.
Qed.

Lemma find_app {A} (f : A -> bool) (l1 l2 : list A) :
  List.find f (l1 ++ l2)
    = match List.find f l1 with
      | Some x => Some x
      | None => List.find f l2
      end.
Proof.
  induction l1 as [|a l1 IH]; [reflexivity|].
  cbn [app List.find]. destruct (f a); [reflexivity | exact IH].
Qed.

Lemma attach_all_lookup (l : list TestCase) (cls : gmap string method)
    (typ prefix id : string) :
  Forall (fun c => is_ok (gen_test c prefix) = true) l ->
  Ok (fst (attach_all l cls typ prefix) !! id)
    = match registered_last l typ prefix id with
      | Some c => m ← gen_test c prefix; Ok (Some m)
      | None => Ok (cls !! id)
      end.
Proof.
  intros HF. revert cls. induction HF as [|c l Hc HF IH]; intros cls.
  - reflexivity.
  - cbn [attach_all]. destruct (gen_test c prefix) as [m| |] eqn:Em;
      [|discriminate Hc..].
    rewrite IH. unfold registered_last. cbn [rev]. rewrite find_app.
    destruct (List.find _ (rev l)) as [c'|]; [reflexivity|].
    cbn [List.find].
    destruct (String.eqb_spec (test_name_of c typ prefix) id) as [E|E].
    + rewrite Em, E, lookup_insert_eq. reflexivity.
    + now rewrite lookup_insert_ne.
Qed.

(** C3, amended.  Registration makes no collision check.  When probe
    synthesis succeeds for every expanded case it raises nothing, and
    every identifier ends up holding the method of the last expanded
    case that synthesizes it, or what the class had when no case
    does: of two cases with one identifier the later replaces the
    earlier, silently. *)
Theorem later_registration_replaces (cases : list TestCase)
    (cls : gmap string method) (typ prefix : string) :
  Forall (fun c => is_ok (gen_test c prefix) = true) (skipna_cases cases) ->
  snd (generate_test_cases cases cls typ prefix) = Ok tt
  /\ forall id,
       Ok (fst (generate_test_cases cases cls typ prefix) !! id)
         = match registered_last (skipna_cases cases) typ prefix id with
           | Some c => m ← gen_test c prefix; Ok (Some m)
           | None => Ok (cls !! id)
           end.
Proof.
  intros HF. unfold generate_test_cases. split.
  - now apply attach_all_succeeds.
  - intros id. now apply attach_all_lookup.
Qed.

(** The theorem at the two [shift] cases followed by [sum]. *)
Lemma later_registration_replaces_witness :
  snd (generate_test_cases [shift_forward; shift_backward; sum_case] ∅ "series" "")
    = Ok tt
  /\ Ok (fst (generate_test_cases [shift_forward; shift_backward; sum_case] ∅
               "series" "") !! "test_series_shift_1")
     = (m ← gen_test shift_backward ""; Ok (Some m))
  /\ Ok (fst (generate_test_cases [shift_forward; shift_backward; sum_case] ∅
               "series" "") !! "test_series_sum")
     = (m ← gen_test sum_case ""; Ok (Some m)).
Proof.
  destruct (later_registration_replaces [shift_forward; shift_backward; sum_case]
              ∅ "series" "") as [Hr Hl].
  - repeat (constructor; [vm_compute; reflexivity|]). constructor.
  - split; [exact Hr|]. split; rewrite Hl; vm_compute; reflexivity.
Defined.

(** ** Skipped methods (C9) *)

(** C9.  The method built for a descriptor with [skip] set reports
    a skipped outcome and leaves the harness state as it was, for every
    harness and entry point: the entry point is not called, and so no
    probe is. *)
Theorem skipped_method_never_runs (d : TestCase) (prefix : string) (m : method) :
  skip d = true ->
  gen_test d prefix = Ok m ->
  forall (H : Type) (test_case_entry : entry_args -> H -> H * res unit) (h : H),
    invoke H test_case_entry m h = (h, Skipped).
Proof.
  intros Hs Hm H entry h. unfold gen_test in Hm.
  apply bind_Ok in Hm as (u & _ & Hm). rewrite Hs in Hm.
  injection Hm as <-. reflexivity.
Qed.

(** The theorem at a skipped [sum] case, on the counting stub. *)
Lemma skipped_method_never_runs_witness :
  exists m, gen_test skipped_case "" = Ok m
    /\ invoke nat counting_entry m 0%nat = (0%nat, Skipped).
Proof.
  destruct (gen_test skipped_case "") as [m| |] eqn:E;
    [|vm_compute in E; discriminate E..].
  exists m. split; [reflexivity|].
  apply (skipped_method_never_runs skipped_case "" m); [reflexivity | exact E].
Defined.

(** ** Lines of an assembled text *)

Lemma split_go_line (line rest cur : string) :
  no_newline line = true ->
  Py.split_go Py.nl (line +:+ Py.nl +:+ rest) O cur
    = String.rev_app cur line :: Py.split_go Py.nl rest O "".
Proof.
  revert cur. induction line as [|c line IH]; intros cur Hn.
  - reflexivity.
  - cbn [no_newline] in Hn. apply andb_true_iff in Hn as [Hc Hn].
    change (String c line +:+ Py.nl +:+ rest)
      with (String c (line +:+ Py.nl +:+ rest)).
    cbn [Py.split_go]. unfold Py.nl at 1. cbn [Py.startswith].
    rewrite Ascii.eqb_sym.
    destruct (Ascii.eqb c (ascii_of_nat 10)); [discriminate Hc|].
    rewrite IH by exact Hn. reflexivity.
Qed.

Lemma split_line (line rest : string) :
  no_newline line = true ->
  Py.split Py.nl (line +:+ Py.nl +:+ rest) = line :: Py.split Py.nl rest.
Proof. intros Hn. unfold Py.split. now rewrite split_go_line. Qed.

Lemma lex_lines_blank (rest : list string) :
  lex_lines ("" :: rest) = lex_lines rest.
Proof. reflexivity. Qed.

Lemma lex_lines_flush_left (line : string) (rest : list string) (toks : list token) :
  indent_of line = (O, line) ->
  Py.truthy line = true ->
  lex line PNone = Some toks ->
  (64 <? length toks)%nat = false ->
  lex_lines (line :: rest)
    = match lex_lines rest with
      | Some ls => Some ((O, toks) :: ls)
      | None => None
      end.
Proof.
  intros Hind Hne Hlex Hlen. cbn [lex_lines]. rewrite Hind.
  destruct line as [|c line]; [discriminate Hne|].
  rewrite Hlex. cbn [mbind option_bind].
  destruct (lex_lines rest) as [ls|]; [|reflexivity].
  cbn [mbind option_bind]. now rewrite Hlen.
Qed.

Lemma compile_header (hdr rest : string) (toks : list token) :
  no_newline hdr = true ->
  indent_of hdr = (O, hdr) ->
  Py.truthy hdr = true ->
  lex hdr PNone = Some toks ->
  (64 <? length toks)%nat = false ->
  compile (Py.nl +:+ hdr +:+ Py.nl +:+ rest) = compile_after toks rest.
Proof.
  intros Hn Hind Hne Hlex Hlen. unfold compile, compile_after.
  change (Py.nl +:+ hdr +:+ Py.nl +:+ rest)
    with ("" +:+ Py.nl +:+ (hdr +:+ Py.nl +:+ rest)).
  rewrite (split_line "") by reflexivity.
  rewrite (split_line hdr) by exact Hn.
  rewrite lex_lines_blank.
  rewrite (lex_lines_flush_left hdr _ toks Hind Hne Hlex Hlen).
  destruct (lex_lines (Py.split Py.nl rest)) as [ls|]; reflexivity.
Qed.

Lemma compile_after_bad_header (toks : list token) (rest : string) :
  parse_header toks = Raise SyntaxError ->
  is_ok (compile_after toks rest) = false.
Proof.
  intros Hh. unfold compile_after.
  destruct (lex_lines (Py.split Py.nl rest)) as [ls|]; [|reflexivity].
  destruct (mapM _ _) as [u| |]; [|reflexivity..].
  cbn [mbind res_bind].
  destruct ls as [|[[|i] first] more]; [reflexivity..|].
  destruct (forallb _ more); [|reflexivity].
  rewrite Hh. reflexivity.
Qed.

Lemma create_func_None (call_expr : string) :
  is_ok (create_func None call_expr) = false.
Proof.
  unfold create_func, exec. apply bind_not_ok, bind_not_ok.
  change (func_text "func" None call_expr)
    with (Py.nl +:+ "def func(None):" +:+ Py.nl +:+ probe_block call_expr).
  erewrite compile_header by (vm_compute; reflexivity).
  apply compile_after_bad_header. vm_compute. reflexivity.
Qed.

Lemma create_func_trailing_comma (call_expr : string) :
  create_func (Some "data, ") call_expr = create_func (Some "data") call_expr.
Proof.
  unfold create_func, exec.
  change (func_text "func" (Some "data, ") call_expr)
    with (Py.nl +:+ "def func(data, ):" +:+ Py.nl +:+ probe_block call_expr).
  change (func_text "func" (Some "data") call_expr)
    with (Py.nl +:+ "def func(data):" +:+ Py.nl +:+ probe_block call_expr).
  erewrite !compile_header by (vm_compute; reflexivity).
  reflexivity.
Qed.

Lemma no_newline_app (a b : string) :
  no_newline (a +:+ b) = no_newline a && no_newline b.
Proof.
  induction a as [|c a IH]; [reflexivity|].
  change (String c a +:+ b) with (String c (a +:+ b)).
  cbn [no_newline]. rewrite IH. now rewrite andb_assoc.
Qed.

Lemma lex_lines_line (line r : string) (n : nat) (rest : list string) :
  indent_of line = (n, r) ->
  Py.truthy r = true ->
  lex_lines (line :: rest)
    = (ts ← lex r PNone;
       ls ← lex_lines rest;
       if (64 <? length ts)%nat then None else Some ((n, ts) :: ls)).
Proof.
  intros Hind Hne. cbn [lex_lines]. rewrite Hind.
  destruct r; [discriminate Hne | reflexivity].
Qed.

Lemma split_probe_block (ce : string) :
  no_newline ce = true ->
  Py.split Py.nl (probe_block ce)
    = ["  start_time = time.time()"; "  res = " +:+ ce;
       "  finish_time = time.time()";
       "  return finish_time - start_time, res"; ""].
Proof.
  intros Hn. unfold probe_block.
  rewrite split_line by reflexivity.
  change ("  res = " +:+ ce +:+ Py.nl +:+ "  finish_time = time.time()" +:+ Py.nl +:+
          "  return finish_time - start_time, res" +:+ Py.nl)
    with (("  res = " +:+ ce) +:+ Py.nl +:+ "  finish_time = time.time()" +:+ Py.nl +:+
          "  return finish_time - start_time, res" +:+ Py.nl).
  rewrite split_line by (rewrite no_newline_app; exact Hn).
  rewrite split_line by reflexivity.
  change ("  return finish_time - start_time, res" +:+ Py.nl)
    with ("  return finish_time - start_time, res" +:+ Py.nl +:+ "").
  rewrite split_line by reflexivity.
  reflexivity.
Qed.

Lemma lex_res_line (ce : string) :
  lex ("res = " +:+ ce) PNone
    = (post ← lex ce PNone; Some (TName "res" :: TEq :: post)).
Proof.
  change (lex ("res = " +:+ ce) PNone)
    with (post ← (post ← (post ← lex ce PNone; Some ([] ++ [] ++ post));
                  Some ([] ++ [TEq] ++ post));
          Some ([TName "res"] ++ [] ++ post)).
  destruct (lex ce PNone); reflexivity.
Qed.

Lemma lex_header_line (up : string) :
  lex ("def func(" +:+ up +:+ "):") PNone
    = (post ← lex (up +:+ "):") PNone; Some (TDef :: TName "func" :: TLPar :: post)).
Proof.
  change (lex ("def func(" +:+ up +:+ "):") PNone)
    with (post ← (post ← lex (up +:+ "):") PNone;
                  Some ([TName "func"] ++ [TLPar] ++ post));
          Some ([TDef] ++ [] ++ post)).
  destruct (lex (up +:+ "):") PNone); reflexivity.
Qed.

Lemma func_text_lines (up ce : string) :
  func_text "func" (Some up) ce
    = Py.nl +:+ ("def func(" +:+ up +:+ "):") +:+ Py.nl +:+ probe_block ce.
Proof.
  unfold func_text. cbn [Py.str_opt].
  change (Py.nl +:+ "def " +:+ "func" +:+ "(" +:+ up +:+ "):" +:+ Py.nl +:+
          "  start_time = time.time()" +:+ Py.nl +:+ "  res = " +:+ ce +:+ Py.nl +:+
          "  finish_time = time.time()" +:+ Py.nl +:+
          "  return finish_time - start_time, res" +:+ Py.nl)
    with (Py.nl +:+ "def func(" +:+ (up +:+ "):" +:+ Py.nl +:+ probe_block ce)).
  change (Py.nl +:+ ("def func(" +:+ up +:+ "):") +:+ Py.nl +:+ probe_block ce)
    with (Py.nl +:+ "def func(" +:+ ((up +:+ "):") +:+ Py.nl +:+ probe_block ce)).
  now rewrite append_assoc.
Qed.

Lemma lex_probe_block (ce : string) :
  no_newline ce = true ->
  lex_lines (Py.split Py.nl (probe_block ce))
    = (post ← lex ce PNone;
       if (64 <? length (TName "res" :: TEq :: post))%nat then None
       else Some [(2%nat, start_tokens); (2%nat, TName "res" :: TEq :: post);
                  (2%nat, finish_tokens); (2%nat, return_tokens)]).
Proof.
  intros Hn. rewrite split_probe_block by exact Hn.
  rewrite (lex_lines_line _ "start_time = time.time()" 2) by reflexivity.
  rewrite (lex_lines_line _ ("res = " +:+ ce) 2) by reflexivity.
  rewrite (lex_lines_line _ "finish_time = time.time()" 2) by reflexivity.
  rewrite (lex_lines_line _ "return finish_time - start_time, res" 2) by reflexivity.
  rewrite lex_lines_blank, lex_res_line.
  destruct (lex ce PNone) as [post|]; [|reflexivity].
  cbn [mbind option_bind].
  destruct (64 <? length (TName "res" :: TEq :: post))%nat; reflexivity.
Qed.

(** ** Synthesis from one-line texts *)

Lemma lex_no_newline (s : string) (p : pending) (ts : list token) :
  lex s p = Some ts -> no_newline s = true.
Proof.
  revert p ts. induction s as [|c s IH]; intros p ts H; [reflexivity|].
  cbn [no_newline].
  destruct (Ascii.eqb_spec c (ascii_of_nat 10)) as [->|_].
  - cbn in H. destruct (flush p); discriminate H.
  - cbn [negb andb]. cbn [lex] in H.
    destruct (is_letter c).
    + destruct p; [eapply IH, H | eapply IH, H | discriminate H].
    + destruct (is_digit c).
      * destruct p; eapply IH, H.
      * destruct (flush p) as [pre|]; [|discriminate H].
        destruct (punct c s p) as [t|]; [|discriminate H].
        cbn [mbind option_bind] in H.
        destruct (lex s PNone) as [post|] eqn:E; [|discriminate H].
        eapply IH, E.
Qed.

Lemma no_newline_app_l (a b : string) :
  no_newline (a +:+ b) = true -> no_newline a = true.
Proof. rewrite no_newline_app. now intros [H _]%andb_true_iff. Qed.

Lemma parse_header_func (hts : list token) :
  parse_header (TDef :: TName "func" :: TLPar :: hts)
    = (ps ← header_part hts; Ok ("func", ps)).
Proof.
  cbn [parse_header]. unfold header_part.
  destruct (parse_params [] hts) as [[ps rest]| |]; [|reflexivity..].
  cbn [mbind res_bind].
  destruct rest as [|t rest]; [reflexivity|].
  destruct t; try reflexivity. destruct rest; reflexivity.
Qed.

Lemma parse_stmt_res (post : list token) :
  parse_stmt (TName "res" :: TEq :: post)
    = (e ← body_part post; Ok (SAssign "res" e)).
Proof.
  cbn [parse_stmt]. unfold body_part.
  destruct (parse_testlist post) as [[e rest]| |]; [|reflexivity..].
  cbn [mbind res_bind].
  destruct rest as [|t rest]; [reflexivity|]. destruct t; reflexivity.
Qed.

(** What [compile] makes of the assembled text when neither hole
    holds a line break. *)
Lemma compile_single_line (sig ce : string) :
  no_newline sig = true ->
  no_newline ce = true ->
  compile (func_text "func" (Some sig) ce)
    = match lex (sig +:+ "):") PNone, lex ce PNone with
      | Some hts, Some post =>
          if (64 <? length (TName "res" :: TEq :: post))%nat then Beyond
          else if (64 <? length (TDef :: TName "func" :: TLPar :: hts))%nat then Beyond
          else
            _ ← brackets 1 hts;
            _ ← brackets 0 post;
            ps ← header_part hts;
            e ← body_part post;
            Ok (probe_of ps e)
      | _, _ => Beyond
      end.
Proof.
  intros Hu Hc. rewrite func_text_lines. unfold compile.
  change (Py.nl +:+ ("def func(" +:+ sig +:+ "):") +:+ Py.nl +:+ probe_block ce)
    with ("" +:+ Py.nl +:+ (("def func(" +:+ sig +:+ "):") +:+ Py.nl +:+ probe_block ce)).
  rewrite (split_line "") by reflexivity.
  rewrite (split_line ("def func(" +:+ sig +:+ "):"))
    by (rewrite !no_newline_app, Hu; reflexivity).
  rewrite lex_lines_blank.
  rewrite (lex_lines_line _ ("def func(" +:+ sig +:+ "):") O) by reflexivity.
  rewrite lex_probe_block by exact Hc.
  rewrite lex_header_line.
  destruct (lex (sig +:+ "):") PNone) as [hts|]; [|reflexivity].
  destruct (lex ce PNone) as [post|]; [|reflexivity].
  cbn [mbind option_bind].
  destruct (64 <? length (TName "res" :: TEq :: post))%nat; [reflexivity|].
  cbn [mbind option_bind].
  destruct (64 <? length (TDef :: TName "func" :: TLPar :: hts))%nat; [reflexivity|].
  cbn [mapM snd fst].
  change (brackets 0 (TDef :: TName "func" :: TLPar :: hts)) with (brackets 1 hts).
  change (brackets 0 start_tokens) with (Ok tt : res unit).
  change (brackets 0 finish_tokens) with (Ok tt : res unit).
  change (brackets 0 return_tokens) with (Ok tt : res unit).
  change (brackets 0 (TName "res" :: TEq :: post)) with (brackets 0 post).
  destruct (brackets 1 hts) as [[]| |]; [|reflexivity..].
  destruct (brackets 0 post) as [[]| |]; [|reflexivity..].
  cbn [mbind res_bind mret res_ret forallb fst Nat.eqb andb map snd].
  rewrite parse_header_func.
  destruct (header_part hts) as [ps| |]; [|reflexivity..].
  cbn [mbind res_bind mapM].
  rewrite parse_stmt_res.
  change (parse_stmt start_tokens) with (Ok (SAssign "start_time" time_call)).
  change (parse_stmt finish_tokens) with (Ok (SAssign "finish_time" time_call)).
  change (parse_stmt return_tokens)
    with (Ok (SReturn (Some (ETuple
            (ECons (EBin Sub (EName "finish_time") (EName "start_time"))
               (ECons (EName "res") ENil)))))).
  destruct (body_part post) as [e| |]; reflexivity.
Qed.

Lemma create_func_single_line (sig ce : string) :
  no_newline sig = true ->
  no_newline ce = true ->
  create_func (Some sig) ce = compile (func_text "func" (Some sig) ce).
Proof.
  intros Hu Hc. unfold create_func, exec.
  rewrite (compile_single_line sig ce Hu Hc).
  destruct (lex (sig +:+ "):") PNone) as [hts|]; [|reflexivity].
  destruct (lex ce PNone) as [post|]; [|reflexivity].
  destruct (64 <? length (TName "res" :: TEq :: post))%nat; [reflexivity|].
  destruct (64 <? length (TDef :: TName "func" :: TLPar :: hts))%nat; [reflexivity|].
  destruct (brackets 1 hts) as [[]| |]; [|reflexivity..].
  destruct (brackets 0 post) as [[]| |]; [|reflexivity..].
  destruct (header_part hts) as [ps| |]; [|reflexivity..].
  destruct (body_part post) as [e| |]; [|reflexivity..].
  cbn [mbind res_bind probe_of f_name]. now rewrite lookup_insert_eq.
Qed.

Lemma signature_syntax_no_newline (sig : string) :
  signature_syntax sig <> Beyond -> no_newline sig = true.
Proof.
  unfold signature_syntax. intros H.
  destruct (lex (sig +:+ "):") PNone) as [hts|] eqn:E; [|contradiction].
  eapply no_newline_app_l, lex_no_newline, E.
Qed.

Lemma expression_syntax_no_newline (ce : string) :
  expression_syntax ce <> Beyond -> no_newline ce = true.
Proof.
  unfold expression_syntax. intros H.
  destruct (lex ce PNone) as [post|] eqn:E; [|contradiction].
  eapply lex_no_newline, E.
Qed.

Lemma decided_not_beyond {A} (r : res A) : decided r -> r <> Beyond.
Proof. intros [[a ->]| ->]; discriminate. Qed.

Lemma decided_Raise {A} (x : exn) : decided (Raise x : res A) -> x = SyntaxError.
Proof. intros [[a H]|H]; [discriminate H | now injection H]. Qed.

Lemma decided_Beyond {A} : ~ decided (Beyond : res A).
Proof. intros [[a H]|H]; discriminate H. Qed.

Ltac syntax_case :=
  match goal with
  | H : decided (Raise _) |- _ => apply decided_Raise in H; subst
  | H : decided Beyond |- _ => destruct (decided_Beyond H)
  | H : Raise _ = Raise _ |- _ => injection H as ->
  | H : Ok _ = Ok _ |- _ => injection H as ->
  | H : _ = _ |- _ => discriminate H
  end.

(** The outcome of [create_func] on texts the fragment decides: a
    syntax error of either text is the outcome; two valid texts give
    the template's function. *)
Lemma create_func_by_syntax (sig ce : string) :
  (decided (signature_syntax sig) ->
   expression_syntax ce = Raise SyntaxError ->
   create_func (Some sig) ce = Raise SyntaxError)
  /\ (signature_syntax sig = Raise SyntaxError ->
      decided (expression_syntax ce) ->
      create_func (Some sig) ce = Raise SyntaxError)
  /\ (forall ps e,
        signature_syntax sig = Ok ps ->
        expression_syntax ce = Ok e ->
        create_func (Some sig) ce = Ok (probe_of ps e)).
Proof.
  assert (Hn : signature_syntax sig <> Beyond -> expression_syntax ce <> Beyond ->
            create_func (Some sig) ce
              = match lex (sig +:+ "):") PNone, lex ce PNone with
                | Some hts, Some post =>
                    if (64 <? length (TName "res" :: TEq :: post))%nat then Beyond
                    else if (64 <? length (TDef :: TName "func" :: TLPar :: hts))%nat
                    then Beyond
                    else
                      _ ← brackets 1 hts;
                      _ ← brackets 0 post;
                      ps ← header_part hts;
                      e ← body_part post;
                      Ok (probe_of ps e)
                | _, _ => Beyond
                end).
  { intros Hs He.
    rewrite create_func_single_line, compile_single_line;
      try (apply signature_syntax_no_newline; assumption);
      try (apply expression_syntax_no_newline; assumption).
    reflexivity. }
  repeat split.
  - intros Hs He. rewrite Hn by (first [apply decided_not_beyond; assumption | congruence]).
    unfold signature_syntax, expression_syntax in *.
    destruct (lex (sig +:+ "):") PNone) as [hts|]; [|syntax_case].
    destruct (lex ce PNone) as [post|]; [|syntax_case].
    destruct (64 <? length (TName "res" :: TEq :: post))%nat; [syntax_case|].
    destruct (64 <? length (TDef :: TName "func" :: TLPar :: hts))%nat; [syntax_case|].
    destruct (brackets 1 hts) as [[]| |]; cbn [mbind res_bind] in *;
      [|syntax_case; reflexivity|syntax_case].
    destruct (brackets 0 post) as [[]| |]; cbn [mbind res_bind] in *;
      [|syntax_case; reflexivity|syntax_case].
    destruct (header_part hts) as [ps| |]; cbn [mbind res_bind] in *;
      [|syntax_case; reflexivity|syntax_case].
    destruct (body_part post) as [e| |]; cbn [mbind res_bind] in *;
      [syntax_case|syntax_case; reflexivity|syntax_case].
  - intros Hs He. rewrite Hn by (first [apply decided_not_beyond; assumption | congruence]).
    unfold signature_syntax, expression_syntax in *.
    destruct (lex (sig +:+ "):") PNone) as [hts|]; [|syntax_case].
    destruct (lex ce PNone) as [post|]; [|syntax_case].
    destruct (64 <? length (TName "res" :: TEq :: post))%nat; [syntax_case|].
    destruct (64 <? length (TDef :: TName "func" :: TLPar :: hts))%nat; [syntax_case|].
    destruct (brackets 1 hts) as [[]| |]; cbn [mbind res_bind] in *;
      [|syntax_case; reflexivity|syntax_case].
    destruct (brackets 0 post) as [[]| |]; cbn [mbind res_bind] in *;
      [|syntax_case; reflexivity|syntax_case].
    destruct (header_part hts) as [ps| |]; cbn [mbind res_bind] in *;
      [syntax_case|syntax_case; reflexivity|syntax_case].
  - intros ps e Hs He. rewrite Hn by congruence.
    unfold signature_syntax, expression_syntax in *.
    destruct (lex (sig +:+ "):") PNone) as [hts|]; [|syntax_case].
    destruct (lex ce PNone) as [post|]; [|syntax_case].
    destruct (64 <? length (TName "res" :: TEq :: post))%nat; [syntax_case|].
    destruct (64 <? length (TDef :: TName "func" :: TLPar :: hts))%nat; [syntax_case|].
    destruct (brackets 1 hts) as [[]| |]; cbn [mbind res_bind] in *;
      [|syntax_case..].
    destruct (brackets 0 post) as [[]| |]; cbn [mbind res_bind] in *;
      [|syntax_case..].
    rewrite Hs, He. reflexivity.
Qed.

(** ** Evaluation *)

Lemma bind_pair_not_ok {A B C} (m : res (A * B)) (f : A -> B -> res C) :
  (forall a b, m = Ok (a, b) -> is_ok (f a b) = false) ->
  is_ok ('(a, b) ← m; f a b) = false.
Proof.
  intros Hf. destruct m as [[a b]| |]; [|reflexivity..]. now apply Hf.
Qed.


Section EvalFacts.

Variable G B : gmap string value.
Variable clock : nat -> Z.
Variable rn : Z -> Z.
Variable locals : list string.

(** An expression that reads a name whose lookup fails does not
    evaluate to a value. *)
Lemma eval_unbound (x : string) (env : gmap string value) :
  is_ok (lookup_name G B locals env x) = false ->
  (forall e n, In x (names e) -> is_ok (eval G B clock rn locals env e n) = false)
  /\ (forall es n, In x (names_list es) ->
        is_ok (eval_list G B clock rn locals env es n) = false)
  /\ (forall ks n, In x (names_kw ks) ->
        is_ok (eval_kw G B clock rn locals env ks n) = false).
Proof.
  intros Hx. apply syntax_mutind; cbn [names names_list names_kw eval eval_list eval_kw].
  - intros y n [<-|[]]. now apply bind_not_ok.
  - intros _ _ [].
  - intros _ [].
  - intros _ _ [].
  - intros o e IH n Hin. apply bind_not_ok. auto.
  - intros o l IHl r IHr n Hin. apply in_app_or in Hin as [Hin|Hin].
    + apply bind_not_ok. auto.
    + apply bind_pair_not_ok. intros a n1 _. apply bind_not_ok. auto.
  - intros e IH a n Hin. apply bind_not_ok. auto.
  - intros f IHf pos IHp kw IHk n Hin.
    apply in_app_or in Hin as [Hin|Hin]; [apply bind_not_ok; auto|].
    apply bind_pair_not_ok. intros vf n1 _.
    apply in_app_or in Hin as [Hin|Hin]; [apply bind_not_ok; auto|].
    apply bind_pair_not_ok. intros vs n2 _. apply bind_not_ok. auto.
  - intros es IH n Hin. apply bind_not_ok. auto.
  - intros _ [].
  - intros e IHe es IHes n Hin. apply in_app_or in Hin as [Hin|Hin].
    + apply bind_not_ok. auto.
    + apply bind_pair_not_ok. intros v n1 _. apply bind_not_ok. auto.
  - intros _ [].
  - intros k e IHe ks IHks n Hin. apply in_app_or in Hin as [Hin|Hin].
    + apply bind_not_ok. auto.
    + apply bind_pair_not_ok. intros v n1 _. apply bind_not_ok. auto.
Qed.



Lemma existsb_eqb_In (x : string) (l : list string) :
  existsb (String.eqb x) l = true <-> In x l.
Proof.
  rewrite existsb_exists. split.
  - intros (y & Hy & E). apply String.eqb_eq in E. now subst.
  - intros H. exists x. split; [exact H | apply String.eqb_refl].
Qed.

Lemma existsb_eqb_not_In (x : string) (l : list string) :
  ~ In x l -> existsb (String.eqb x) l = false.
Proof.
  intros Hx. destruct (existsb (String.eqb x) l) eqn:E; [|reflexivity].
  apply existsb_eqb_In in E. contradiction.
Qed.

Lemma eval_time_call_ok (env : gmap string value) (n : nat) :
  G !! "time" = Some VModuleTime ->
  ~ In "time" locals ->
  eval G B clock rn locals env time_call n = Ok (VFloat (clock n), S n).
Proof.
  intros HG Hl. unfold time_call. cbn [eval eval_list eval_kw].
  unfold lookup_name. rewrite existsb_eqb_not_In by exact Hl.
  rewrite HG. reflexivity.
Qed.

End EvalFacts.

Lemma lookup_params_None (ps : list string) (args : list value) (x : string) :
  ~ In x ps ->
  (list_to_map (zip ps args) : gmap string value) !! x = None.
Proof.
  intros Hx. apply not_elem_of_list_to_map_1. intros Hin.
  apply list_elem_of_fmap in Hin as ([y v] & -> & Hin).
  apply elem_of_zip_l in Hin. apply Hx. now apply list_elem_of_In.
Qed.


(** ** Calls of the template's function *)

Section ProbeFacts.

Variable G B : gmap string value.
Variable clock : nat -> Z.
Variable rn : Z -> Z.
Variable ps : list string.
Variable e : expr.

Lemma template_locals (y : string) :
  In y ["start_time"; "res"; "finish_time"] ->
  existsb (String.eqb y) (local_names (probe_of ps e)) = true.
Proof.
  intros Hy. apply existsb_eqb_In. unfold local_names.
  apply in_or_app. right. exact Hy.
Qed.

(** A call of the template's function does not return when the lookup
    of a name of its expression fails in the frame that holds the
    arguments and [start_time]. *)
Lemma probe_lookup_fails (x : string) (args : list value) (n : nat) :
  In x (names e) ->
  (forall v0, is_ok (lookup_name G B (local_names (probe_of ps e))
                       (<["start_time" := v0]> (list_to_map (zip ps args))) x)
              = false) ->
  is_ok (call G B clock rn (probe_of ps e) args n) = false.
Proof.
  intros Hin Hx. unfold call. cbn [f_params f_body probe_of].
  destruct (Nat.eqb _ _); [|reflexivity].
  unfold probe_body at 1. cbn [exec_body].
  apply bind_pair_not_ok. intros v0 n0 _.
  apply bind_pair_not_ok. intros v1 n1 H1. exfalso.
  pose proof (proj1 (eval_unbound G B clock rn _ x _ (Hx v0)) e n0 Hin) as Hno.
  rewrite H1 in Hno. discriminate Hno.
Qed.

Lemma probe_unbound_name (x : string) (args : list value) (n : nat) :
  In x (names e) ->
  ~ In x ps ->
  x <> "start_time" ->
  G !! x = None ->
  B !! x = None ->
  is_ok (call G B clock rn (probe_of ps e) args n) = false.
Proof.
  intros Hin Hp Hs HG HB. apply (probe_lookup_fails x); [exact Hin|].
  intros v0. unfold lookup_name.
  rewrite lookup_insert_ne by (intros E; apply Hs; now rewrite E).
  rewrite lookup_params_None by exact Hp. rewrite HG, HB.
  destruct (existsb _ _); reflexivity.
Qed.

Lemma probe_template_local (x : string) (args : list value) (n : nat) :
  x = "res" \/ x = "finish_time" ->
  In x (names e) ->
  ~ In x ps ->
  is_ok (call G B clock rn (probe_of ps e) args n) = false.
Proof.
  intros Hx Hin Hp. apply (probe_lookup_fails x); [exact Hin|].
  intros v0. unfold lookup_name.
  rewrite template_locals by (cbn; destruct Hx as [->| ->]; tauto).
  rewrite lookup_insert_ne by (destruct Hx as [->| ->]; discriminate).
  rewrite lookup_params_None by exact Hp. reflexivity.
Qed.

Lemma return_tuple (env : gmap string value) (t0 t1 : Z) (r : value) (n : nat) :
  eval G B clock rn (local_names (probe_of ps e))
    (<["finish_time" := VFloat t1]> (<["res" := r]> (<["start_time" := VFloat t0]> env)))
    (ETuple (ECons (EBin Sub (EName "finish_time") (EName "start_time"))
               (ECons (EName "res") ENil))) n
    = Ok (VTuple [VFloat (rn (t1 - t0)); r], n).
Proof.
  cbn [eval eval_list]. unfold lookup_name.
  rewrite !template_locals by (cbn; tauto).
  rewrite lookup_insert_eq.
  rewrite (lookup_insert_ne _ "finish_time" "start_time") by discriminate.
  rewrite (lookup_insert_ne _ "res" "start_time") by discriminate.
  rewrite lookup_insert_eq.
  rewrite (lookup_insert_ne _ "finish_time" "res") by discriminate.
  rewrite lookup_insert_eq.
  reflexivity.
Qed.


Lemma probe_call (args : list value) (n : nat) :
  G !! "time" = Some VModuleTime ->
  ~ In "time" ps ->
  length args = length ps ->
  call G B clock rn (probe_of ps e) args n
    = ('(r, k) ← eval G B clock rn (local_names (probe_of ps e))
                   (<["start_time" := VFloat (clock n)]> (list_to_map (zip ps args)))
                   e (S n);
       Ok (VTuple [VFloat (rn (clock k - clock n)); r], S k)).
Proof.
  intros HG Ht Hlen. unfold call. cbn [f_params f_body probe_of].
  rewrite Hlen, Nat.eqb_refl.
  assert (Hl : ~ In "time" (local_names (probe_of ps e))).
  { unfold local_names. cbn [f_params f_body probe_of]. intros H.
    apply in_app_or in H as [H|H]; [contradiction|].
    cbn in H. intuition discriminate. }
  unfold probe_body at 1. cbn [exec_body].
  rewrite eval_time_call_ok by assumption. cbn [mbind res_bind].
  destruct (eval G B clock rn _ _ e (S n)) as [[r k]| |]; [|reflexivity..].
  cbn [mbind res_bind]. rewrite eval_time_call_ok by assumption.
  cbn [mbind res_bind]. apply return_tuple.
Qed.

End ProbeFacts.

(** ** Probe synthesis: syntax and names (C1) *)

(** C1, as stated, fails for names.  The expression reads [other],
    which the signature does not declare and which is neither a global
    of the module nor a builtin: [create_func] returns a function all
    the same, and the defect shows when that function is called, as a
    [NameError]. *)
Lemma undefined_name_fails_at_call_time :
  module_globals !! "other" = None
  /\ python_builtins !! "other" = None
  /\ exists f,
       create_func (Some "data") "data + other" = Ok f
       /\ call module_globals python_builtins sample_clock exact f [VInt 5] O
          = Raise (NameError "other").
Proof.
  split; [vm_compute; reflexivity|]. split; [vm_compute; reflexivity|].
  destruct (create_func (Some "data") "data + other") as [f| |] eqn:E;
    [|vm_compute in E; discriminate E..].
  exists f. split; [reflexivity|].
  vm_compute in E. injection E as <-. vm_compute. reflexivity.
Qed.

(** C1, amended.  Within the fragment (a signature of plain names, a
    one-line expression of names, integers, [None], [True], [False],
    [+], [-], attribute access, calls and tuples): a syntax error in the
    signature or in the expression makes [create_func] fail when it is
    called, with [SyntaxError]; two valid texts give the template's
    function whatever names the expression reads.  A name it reads
    that is neither a parameter, nor the local [start_time], nor a
    global, nor a builtin is no construction-time defect: no call of
    the function returns, it raises (or leaves the fragment's values
    before). *)
Theorem synthesis_errors (signature call_expr : string) :
  (decided (signature_syntax signature) ->
   expression_syntax call_expr = Raise SyntaxError ->
   create_func (Some signature) call_expr = Raise SyntaxError)
  /\ (signature_syntax signature = Raise SyntaxError ->
      decided (expression_syntax call_expr) ->
      create_func (Some signature) call_expr = Raise SyntaxError)
  /\ (forall (ps : list string) (e : expr),
        signature_syntax signature = Ok ps ->
        expression_syntax call_expr = Ok e ->
        create_func (Some signature) call_expr = Ok (probe_of ps e)
        /\ forall (x : string) (G B : gmap string value) (clock : nat -> Z)
             (rn : Z -> Z) (args : list value) (n : nat),
             In x (names e) ->
             ~ In x ps ->
             x <> "start_time" ->
             G !! x = None ->
             B !! x = None ->
             is_ok (call G B clock rn (probe_of ps e) args n) = false).
Proof.
  destruct (create_func_by_syntax signature call_expr) as (Ha & Hb & Hc).
  split; [exact Ha|]. split; [exact Hb|].
  intros ps e Hs He. split; [now apply Hc|].
  intros x G B clock rn args n Hin Hp Hx HG HB.
  now apply (probe_unbound_name G B clock rn ps e x).
Qed.

(** The theorem at a dangling operator, at a repeated parameter and at
    an undeclared name. *)
Lemma synthesis_errors_witness :
  create_func (Some "data") "data +" = Raise SyntaxError
  /\ create_func (Some "data, data") "data" = Raise SyntaxError
  /\ create_func (Some "data") "data + other"
     = Ok (probe_of ["data"] (EBin Add (EName "data") (EName "other")))
  /\ is_ok (call module_globals python_builtins sample_clock exact
              (probe_of ["data"] (EBin Add (EName "data") (EName "other")))
              [VInt 5] O) = false.
Proof.
  split; [|split].
  - apply (proj1 (synthesis_errors "data" "data +")).
    + left. exists ["data"]. vm_compute. reflexivity.
    + vm_compute. reflexivity.
  - apply (proj1 (proj2 (synthesis_errors "data, data" "data"))).
    + vm_compute. reflexivity.
    + left. exists (EName "data"). vm_compute. reflexivity.
  - destruct (proj2 (proj2 (synthesis_errors "data" "data + other"))
                ["data"] (EBin Add (EName "data") (EName "other")))
      as [Hf Hcall].
    + vm_compute. reflexivity.
    + vm_compute. reflexivity.
    + split; [exact Hf|]. apply (Hcall "other").
      * cbn. tauto.
      * cbn. intuition discriminate.
      * discriminate.
      * vm_compute. reflexivity.
      * vm_compute. reflexivity.
Defined.

(** ** The probe's result (C6) *)




(** ** The signature used for synthesis (C7) *)

(** C7, as stated, fails when [call_expr] is given and
    [usecase_params] is not: no signature is derived, [None] goes into
    the text, and synthesis fails, although the signature the claim
    describes would have compiled. *)
Lemma signature_not_derived_for_explicit_expr :
  claimed_signature explicit_expr_case = "data, other"
  /\ fst (usecase_inputs explicit_expr_case "") <> Some (claimed_signature explicit_expr_case)
  /\ gen_usecase explicit_expr_case "" = Raise SyntaxError
  /\ create_func (Some (claimed_signature explicit_expr_case)) "data + other"
     = Ok add_probe.
Proof.
  split; [reflexivity|]. split; [discriminate|].
  split; vm_compute; reflexivity.
Qed.

(** C7, amended.  The signature handed to [create_func] is the
    explicit [usecase_params] when given; when it is absent, it is
    ["data"] followed by the extra data tokens only if [call_expr] is
    absent too; with an explicit [call_expr] it stays [None], which
    [create_func] never turns into a function. *)
Theorem signature_used (d : TestCase) (prefix : string) :
  fst (usecase_inputs d prefix)
    = match usecase_params d, call_expr d with
      | Some u, _ => Some u
      | None, None => Some (Py.join ", " ("data" :: extra_usecase_params d))
      | None, Some _ => None
      end
  /\ gen_usecase d prefix
     = match snd (usecase_inputs d prefix) with
       | CEStr s => UFunc <$> create_func (fst (usecase_inputs d prefix)) s
       | CEList l =>
           URecords <$>
             mapM (fun ce =>
                     f ← create_func (fst (usecase_inputs d prefix)) (code ce);
                     Ok {| func := f; rec_type_ := type_ ce;
                           rec_jitted := jitted ce |}) l
       end
  /\ (forall s, is_ok (create_func None s) = false).
Proof.
  split; [|split].
  - unfold usecase_inputs. destruct (usecase_params d), (call_expr d); reflexivity.
  - unfold gen_usecase. destruct (usecase_inputs d prefix) as [sig [s|l]]; cbn [fst snd].
    + destruct (create_func sig s); reflexivity.
    + destruct (mapM _ l); reflexivity.
  - apply create_func_None.
Qed.

(** ** Empty params with extra data (C10) *)

(** C10, as stated, fails in its second half.  The derived signature
    is ["data, "], and Python accepts a trailing comma in a parameter
    list: synthesis succeeds, with the single parameter [data]. *)
Lemma trailing_comma_signature_compiles :
  gen_usecase_params two_data_case = "data, "
  /\ create_func (Some (gen_usecase_params two_data_case))
       (gen_call_expr two_data_case "")
     = Ok {| f_name := "func"; f_params := ["data"];
             f_body := probe_body (ECall (EAttr (EName "data") "add") ENil KNil) |}
  /\ is_ok (gen_usecase two_data_case "") = true.
Proof. repeat split; vm_compute; reflexivity. Qed.

(** C10, amended.  For empty [params], no [data_gens] and [data_num]
    at least 2, the derived signature is the text ["data, "], because
    splitting the empty string yields one empty piece; synthesizing
    from it gives, for every call expression, what the signature
    ["data"] gives. *)
Theorem empty_params_signature (d : TestCase) :
  params d = "" ->
  data_gens d = None ->
  2 <= data_num d ->
  gen_usecase_params d = "data, "
  /\ forall call_expr,
       create_func (Some (gen_usecase_params d)) call_expr
         = create_func (Some "data") call_expr.
Proof.
  intros Hp Hg Hn.
  assert (E : gen_usecase_params d = "data, ").
  { unfold gen_usecase_params, extra_usecase_params, extra_data_num.
    rewrite Hp, Hg. rewrite slice_to_nonneg by lia.
    change (Py.split ", " "") with [""].
    destruct (Z.to_nat (data_num d - 1)) as [|[|k]] eqn:Ek; [lia | reflexivity..]. }
  split; [exact E|]. intros ce. rewrite E. apply create_func_trailing_comma.
Qed.

(** The theorem at [add] with two data arguments. *)
Lemma empty_params_signature_witness :
  gen_usecase_params two_data_case = "data, "
  /\ create_func (Some (gen_usecase_params two_data_case)) "data.add()"
     = create_func (Some "data") "data.add()".
Proof.
  destruct (empty_params_signature two_data_case) as [E H].
  - reflexivity.
  - reflexivity.
  - cbn. lia.
  - split; [exact E | apply H].
Defined.

(** * Further properties *)

(** ** Further properties of the partition helpers *)

Lemma partition_recombines (d : TestCase) :
  extra_usecase_params d ++ method_params d = Py.split ", " (params d).
Proof.
  unfold extra_usecase_params, method_params, Py.slice_to, Py.slice_from.
  apply take_drop.
Qed.

Lemma split_go_nonempty (sep s : string) (skip : nat) (cur : string) :
  Py.split_go sep s skip cur <> [].
Proof.
  revert skip cur. induction s as [|c s IH]; intros skip cur; cbn [Py.split_go].
  - discriminate.
  - destruct skip; [|apply IH].
    destruct (Py.startswith sep (String c s)); [discriminate | apply IH].
Qed.

(** X3.  A width below zero counts from the end of the tokens: with
    [data_num] = 0 the last token alone is literal, the others are
    taken as data. *)
Theorem negative_width_counts_from_end (d : TestCase) :
  data_gens d = None ->
  data_num d <= 0 ->
  let tokens := Py.split ", " (params d) in
  let cut := (length tokens - Z.to_nat (1 - data_num d))%nat in
  extra_usecase_params d = take cut tokens
  /\ method_params d = drop cut tokens
  /\ (data_num d = 0 -> exists t, method_params d = [t]).
Proof.
  intros Hg Hn tokens cut.
  assert (Hb : Py.bound (length tokens) (extra_data_num d) = cut).
  { unfold Py.bound, extra_data_num. rewrite Hg.
    destruct (Z.ltb_spec (data_num d - 1) 0); [|lia].
    subst cut. lia. }
  unfold extra_usecase_params, method_params, Py.slice_to, Py.slice_from.
  fold tokens. rewrite Hb. split; [reflexivity|]. split; [reflexivity|].
  intros H0. subst cut. rewrite H0. change (Z.to_nat (1 - 0)) with 1%nat.
  assert (Hne : tokens <> []) by apply split_go_nonempty.
  destruct (tokens) as [|t ts] using rev_ind; [contradiction|].
  exists t. rewrite length_app. cbn [length].
  replace (length ts + 1 - 1)%nat with (length ts) by lia.
  now rewrite drop_app_length.
Qed.

(** The theorem at [data_num] = 0. *)
Lemma negative_width_counts_from_end_witness :
  extra_usecase_params (TC "add" "x, y, z" 0 None) = ["x"; "y"]
  /\ method_params (TC "add" "x, y, z" 0 None) = ["z"].
Proof.
  destruct (negative_width_counts_from_end (TC "add" "x, y, z" 0 None))
    as (He & Hm & _).
  - reflexivity.
  - cbn. lia.
  - rewrite He, Hm. split; reflexivity.
Defined.

(** ** Further properties of the expansion *)

(** X4.  The expansion adds one descriptor per flagged case, and is the
    identity on a table without flagged cases. *)
Theorem skipna_cases_length (cases : list TestCase) :
  length (skipna_cases cases)
    = (length cases + length (List.filter check_skipna cases))%nat
  /\ (Forall (fun c => check_skipna c = false) cases -> skipna_cases cases = cases).
Proof.
  split.
  - induction cases as [|c cases IH]; [reflexivity|].
    cbn [skipna_cases List.filter]. rewrite length_app, IH.
    destruct (check_skipna c); cbn [length map]; lia.
  - induction 1 as [|c cases Hc HF IH]; [reflexivity|].
    cbn [skipna_cases]. rewrite Hc, IH. reflexivity.
Qed.

(** The theorem at a table without flagged cases. *)
Lemma skipna_cases_length_witness :
  skipna_cases [sum_case; shift_forward] = [sum_case; shift_forward].
Proof.
  apply (proj2 (skipna_cases_length [sum_case; shift_forward])).
  repeat constructor.
Defined.

(** ** Further properties of registration *)

Lemma attach_all_other (l : list TestCase) (cls : gmap string method)
    (typ prefix id : string) :
  Forall (fun c => test_name_of c typ prefix <> id) l ->
  fst (attach_all l cls typ prefix) !! id = cls !! id.
Proof.
  intros HF. revert cls.
  induction HF as [|c l Hc HF IH]; intros cls; cbn [attach_all]; [reflexivity|].
  destruct (gen_test c prefix); [|reflexivity..].
  rewrite IH. now apply lookup_insert_ne.
Qed.

(** X5.  Registration writes under the synthesized identifiers only: every
    other attribute of the class is as it was, whether or not
    registration ran to its end. *)
Theorem registration_keeps_other_attributes (cases : list TestCase)
    (cls : gmap string method) (typ prefix id : string) :
  Forall (fun c => test_name_of c typ prefix <> id) (skipna_cases cases) ->
  fst (generate_test_cases cases cls typ prefix) !! id = cls !! id.
Proof. apply attach_all_other. Qed.

(** The theorem at a class that already has a [setUp] attribute. *)
Lemma registration_keeps_other_attributes_witness :
  fst (generate_test_cases [shift_forward] {[ "setUp" := MSkip (MSkip (MFunc
         {| arg_usecase := URecords []; arg_name := ""; arg_total_data_length := [];
            arg_data_num := 1; arg_data_gens := None; arg_input_data := None |})) ]}
         "series" "") !! "setUp"
    = Some (MSkip (MSkip (MFunc
         {| arg_usecase := URecords []; arg_name := ""; arg_total_data_length := [];
            arg_data_num := 1; arg_data_gens := None; arg_input_data := None |}))).
Proof.
  rewrite registration_keeps_other_attributes.
  - apply lookup_singleton_eq.
  - repeat constructor. vm_compute. discriminate.
Defined.

(** X6.  When the identifiers of the expanded cases are pairwise distinct
    and synthesis succeeds for each, no case is lost: every one of them
    is found under its identifier, with its own method. *)
Theorem distinct_identifiers_keep_every_case (cases : list TestCase)
    (cls : gmap string method) (typ prefix : string) :
  NoDup (map (fun c => test_name_of c typ prefix) (skipna_cases cases)) ->
  Forall (fun c => is_ok (gen_test c prefix) = true) (skipna_cases cases) ->
  snd (generate_test_cases cases cls typ prefix) = Ok tt
  /\ Forall (fun c =>
       Ok (fst (generate_test_cases cases cls typ prefix)
             !! test_name_of c typ prefix)
         = (m ← gen_test c prefix; Ok (Some m)))
       (skipna_cases cases).
Proof.
  unfold generate_test_cases. generalize (skipna_cases cases). clear cases.
  intros l Hnd Hok. split; [now apply attach_all_succeeds|].
  revert cls. induction l as [|c l IH]; intros cls; [constructor|].
  cbn [map] in Hnd. apply NoDup_cons in Hnd as [Hc Hnd].
  apply Forall_cons in Hok as [Hokc Hok].
  cbn [attach_all]. destruct (gen_test c prefix) as [m| |] eqn:Em;
    [|discriminate Hokc..].
  constructor.
  - rewrite Em. cbn [mbind res_bind]. f_equal.
    rewrite attach_all_other.
    + apply lookup_insert_eq.
    + apply Forall_forall. intros c' Hc' E. apply Hc.
      apply list_elem_of_fmap. exists c'. split; [now rewrite E | exact Hc'].
  - apply IH; assumption.
Qed.

(** The theorem at a table of two cases. *)
Lemma distinct_identifiers_keep_every_case_witness :
  snd (generate_test_cases [sum_case; shift_forward] ∅ "series" "") = Ok tt
  /\ Forall (fun c =>
       Ok (fst (generate_test_cases [sum_case; shift_forward] ∅ "series" "")
             !! test_name_of c "series" "")
         = (m ← gen_test c ""; Ok (Some m)))
       (skipna_cases [sum_case; shift_forward]).
Proof.
  apply distinct_identifiers_keep_every_case.
  - apply (bool_decide_unpack _). vm_compute. exact I.
  - repeat constructor; vm_compute; reflexivity.
Defined.

(** X7.  Registration stops at the first expanded case whose synthesis
    fails, be it marked to be skipped or not: the exception is the
    result, the cases before it stay attached, and the cases after it
    are never attached. *)
Theorem registration_stops_at_first_failure (cases before after : list TestCase)
    (bad : TestCase) (cls : gmap string method) (typ prefix : string) (e : exn) :
  skipna_cases cases = before ++ bad :: after ->
  Forall (fun c => is_ok (gen_test c prefix) = true) before ->
  gen_test bad prefix = Raise e ->
  generate_test_cases cases cls typ prefix
    = (fst (attach_all before cls typ prefix), Raise e).
Proof.
  intros Hcases Hok Hbad. unfold generate_test_cases.
  rewrite Hcases, attach_all_app.
  pose proof (attach_all_succeeds before cls typ prefix Hok) as Hs.
  destruct (attach_all before cls typ prefix) as [cls1 r]. cbn [snd] in Hs.
  subst r. cbn [attach_all fst]. now rewrite Hbad.
Qed.

(** The theorem at a table whose second case is malformed and marked
    to be skipped: the third case is never attached. *)
Lemma registration_stops_at_first_failure_witness :
  generate_test_cases [sum_case; broken_case; shift_forward] ∅ "series" ""
    = (fst (attach_all [sum_case] ∅ "series" ""), Raise SyntaxError)
  /\ fst (generate_test_cases [sum_case; broken_case; shift_forward] ∅ "series" "")
       !! "test_series_shift_1" = None.
Proof.
  assert (H : generate_test_cases [sum_case; broken_case; shift_forward] ∅ "series" ""
              = (fst (attach_all [sum_case] ∅ "series" ""), Raise SyntaxError)).
  { apply (registration_stops_at_first_failure _ [sum_case] [shift_forward] broken_case).
    - reflexivity.
    - constructor; [vm_compute; reflexivity | constructor].
    - vm_compute. reflexivity. }
  split; [exact H|]. rewrite H. vm_compute. reflexivity.
Defined.

(** ** Further properties of the synthesized probe *)

(** X8.  For a signature and an expression of the fragment, the
    synthesized probe does what its template says and nothing more:
    called with as many arguments as it has parameters (none named
    [time], and [time] bound to the module), it reads the clock,
    evaluates the call expression with the arguments bound to the
    signature's names and [start_time] to the first reading, reads the
    clock again, and returns the rounded difference of the readings
    with the value; an exception raised by the expression is raised
    by the probe, and an evaluation that leaves the fragment leaves
    it for the probe too. *)
Theorem probe_call_equation (signature call_expr : string) (ps : list string)
    (e : expr) (G B : gmap string value) (clock : nat -> Z) (rn : Z -> Z)
    (args : list value) (n : nat) :
  signature_syntax signature = Ok ps ->
  expression_syntax call_expr = Ok e ->
  G !! "time" = Some VModuleTime ->
  ~ In "time" ps ->
  length args = length ps ->
  create_func (Some signature) call_expr = Ok (probe_of ps e)
  /\ call G B clock rn (probe_of ps e) args n
     = ('(r, k) ← eval G B clock rn (local_names (probe_of ps e))
                    (<["start_time" := VFloat (clock n)]>
                       (list_to_map (zip ps args))) e (S n);
        Ok (VTuple [VFloat (rn (clock k - clock n)); r], S k))
  /\ forall x, eval G B clock rn (local_names (probe_of ps e))
                 (<["start_time" := VFloat (clock n)]>
                    (list_to_map (zip ps args))) e (S n) = Raise x ->
               call G B clock rn (probe_of ps e) args n = Raise x.
Proof.
  intros Hs He HG Ht Hlen.
  split; [now apply create_func_by_syntax|].
  rewrite (probe_call G B clock rn ps e args n HG Ht Hlen).
  split; [reflexivity|]. intros x Hx. now rewrite Hx.
Qed.

(** The theorem at the probe for ["data + other"]. *)
Lemma probe_call_equation_witness :
  create_func (Some "data, other") "data + other" = Ok add_probe
  /\ call module_globals python_builtins sample_clock exact add_probe
       [VInt 5; VInt 3] 7%nat
     = Ok (VTuple [VFloat 1; VInt 8], 9%nat).
Proof.
  destruct (probe_call_equation "data, other" "data + other" ["data"; "other"]
              (EBin Add (EName "data") (EName "other"))
              module_globals python_builtins sample_clock exact
              [VInt 5; VInt 3] 7%nat)
    as (Hf & Hcall & _).
  - vm_compute. reflexivity.
  - vm_compute. reflexivity.
  - vm_compute. reflexivity.
  - cbn. intuition discriminate.
  - reflexivity.
  - split; [exact Hf|]. unfold add_probe. fold (probe_of ["data"; "other"]
      (EBin Add (EName "data") (EName "other"))).
    rewrite Hcall. vm_compute. reflexivity.
Defined.

(** X9.  For a signature and an expression of the fragment, the names
    the template assigns after the call expression, [res] and
    [finish_time], are local to the synthesized probe: when the
    expression reads one of them (and no parameter has that name) no
    call of the probe returns, even when the module has a global of
    that name: it raises (or leaves the fragment's values before). *)
Theorem template_locals_are_unbound (signature call_expr : string)
    (ps : list string) (e : expr) :
  signature_syntax signature = Ok ps ->
  expression_syntax call_expr = Ok e ->
  create_func (Some signature) call_expr = Ok (probe_of ps e)
  /\ forall (x : string) (G B : gmap string value) (clock : nat -> Z)
       (rn : Z -> Z) (args : list value) (n : nat),
       x = "res" \/ x = "finish_time" ->
       In x (names e) ->
       ~ In x ps ->
       is_ok (call G B clock rn (probe_of ps e) args n) = false.
Proof.
  intros Hs He. split; [now apply create_func_by_syntax|].
  intros x G B clock rn args n Hx Hin Hp. now apply (probe_template_local G B clock rn ps e x).
Qed.

(** The theorem at an expression that reads [res], with a global of
    that name. *)
Lemma template_locals_are_unbound_witness :
  create_func (Some "data") "data + res"
    = Ok (probe_of ["data"] (EBin Add (EName "data") (EName "res")))
  /\ is_ok (call (<["res" := VInt 1]> module_globals) python_builtins
              sample_clock exact
              (probe_of ["data"] (EBin Add (EName "data") (EName "res")))
              [VInt 5] O) = false.
Proof.
  destruct (template_locals_are_unbound "data" "data + res" ["data"]
              (EBin Add (EName "data") (EName "res"))) as [Hf Hcall].
  - vm_compute. reflexivity.
  - vm_compute. reflexivity.
  - split; [exact Hf|].
    apply (Hcall "res"); [now left | cbn; tauto | cbn; intuition discriminate].
Defined.

(** ** Joining what was split *)

Lemma append_nil_r (s : string) : s +:+ "" = s.
Proof.
  induction s as [|c s IH]; [reflexivity|].
  change (String c s +:+ "") with (String c (s +:+ "")). now rewrite IH.
Qed.

Lemma length_append (a b : string) :
  String.length (a +:+ b) = (String.length a + String.length b)%nat.
Proof.
  induction a as [|c a IH]; [reflexivity|].
  change (String c a +:+ b) with (String c (a +:+ b)).
  cbn [String.length]. now rewrite IH.
Qed.

Lemma rev_app_append (a b s : string) :
  String.rev_app a (b +:+ s) = String.rev_app a b +:+ s.
Proof.
  revert b. induction a as [|c a IH]; intros b; [reflexivity|].
  cbn [String.rev_app].
  change (String c (b +:+ s)) with (String c b +:+ s). apply IH.
Qed.

Lemma rev_app_rev (a s : string) : String.rev_app a s = String.rev a +:+ s.
Proof. unfold String.rev. now rewrite <- rev_app_append. Qed.

Lemma startswith_append (p s : string) :
  Py.startswith p s = true -> exists t, s = p +:+ t.
Proof.
  revert s. induction p as [|a p IH]; intros s H.
  - exists s. reflexivity.
  - destruct s as [|b s]; [discriminate H|]. cbn [Py.startswith] in H.
    destruct (Ascii.eqb_spec a b) as [->|]; [|discriminate H].
    destruct (IH s H) as [t ->]. exists t. reflexivity.
Qed.

Lemma split_go_skip (sep p s cur : string) :
  Py.split_go sep (p +:+ s) (String.length p) cur = Py.split_go sep s O cur.
Proof.
  induction p as [|c p IH]; [reflexivity|].
  change (String c p +:+ s) with (String c (p +:+ s)).
  cbn [String.length Py.split_go]. exact IH.
Qed.

Lemma join_cons (sep p : string) (rest : list string) :
  rest <> [] -> Py.join sep (p :: rest) = p +:+ sep +:+ Py.join sep rest.
Proof. destruct rest; [contradiction | reflexivity]. Qed.

Lemma join_split_go (a : ascii) (sep' : string) (n : nat) :
  forall s cur, (String.length s <= n)%nat ->
    Py.join (String a sep') (Py.split_go (String a sep') s O cur)
      = String.rev cur +:+ s.
Proof.
  induction n as [|n IH]; intros s cur Hlen.
  - destruct s; [|cbn in Hlen; lia]. cbn. now rewrite append_nil_r.
  - destruct s as [|c s]; [cbn; now rewrite append_nil_r|].
    cbn [Py.split_go].
    destruct (Py.startswith (String a sep') (String c s)) eqn:Hs.
    + apply startswith_append in Hs as [t Ht].
      change (String a sep' +:+ t) with (String a (sep' +:+ t)) in Ht.
      injection Ht as -> ->.
      cbn [String.length Nat.pred]. rewrite split_go_skip.
      rewrite join_cons by apply split_go_nonempty.
      rewrite IH.
      * reflexivity.
      * cbn [String.length] in Hlen. rewrite length_append in Hlen. lia.
    + rewrite IH by (cbn [String.length] in Hlen; lia).
      unfold String.rev at 1. cbn [String.rev_app].
      rewrite <- rev_app_append.
      change (String c "" +:+ s) with (String c s). apply rev_app_rev.
Qed.

(** [sep.join(s.split(sep))] is [s]. *)
Lemma join_split (sep s : string) :
  sep <> "" -> Py.join sep (Py.split sep s) = s.
Proof.
  intros Hsep. destruct sep as [|a sep']; [contradiction|].
  unfold Py.split. now rewrite (join_split_go a sep' (String.length s)).
Qed.

(** X1.  Whatever [data_num] and [data_gens] are, negative widths
    included, the two helpers cut the tokens of [params] at one place:
    no token is lost or repeated, and joining the data tokens and the
    literal tokens back gives the parameter text. *)
Theorem partition_rejoins (d : TestCase) :
  extra_usecase_params d ++ method_params d = Py.split ", " (params d)
  /\ Py.join ", " (extra_usecase_params d ++ method_params d) = params d.
Proof.
  split; [apply partition_recombines|].
  rewrite partition_recombines. now apply join_split.
Qed.

(** X2.  With no extra data (width 0: the default [data_num] of 1, or an
    empty [data_gens]) the signature is ["data"] alone and the literal
    parameter text is [params], unchanged. *)
Theorem width_zero_keeps_params (d : TestCase) :
  extra_data_num d = 0 ->
  gen_usecase_params d = "data" /\ gen_params_wo_data d = params d.
Proof.
  intros Hw. unfold gen_usecase_params, gen_params_wo_data,
    extra_usecase_params, method_params. rewrite Hw.
  unfold Py.slice_to, Py.slice_from, Py.bound.
  cbn [Z.ltb Z.compare Z.to_nat Nat.min take drop].
  split; [reflexivity|]. now apply join_split.
Qed.

(** The theorem at a one-data case with two literal parameters. *)
Lemma width_zero_keeps_params_witness :
  gen_usecase_params (TC "fillna" "value=0, inplace=True" 1 None) = "data"
  /\ gen_params_wo_data (TC "fillna" "value=0, inplace=True" 1 None)
     = "value=0, inplace=True".
Proof. apply width_zero_keeps_params. reflexivity. Defined.

(** ** Identifiers without excess underscores *)

Lemma no_underscore_rev_app (a b : string) :
  no_underscore (String.rev_app a b) = no_underscore a && no_underscore b.
Proof.
  revert b. induction a as [|c a IH]; intros b; [reflexivity|].
  cbn [String.rev_app no_underscore]. rewrite IH. cbn [no_underscore].
  destruct (Ascii.eqb c "_"), (no_underscore a), (no_underscore b); reflexivity.
Qed.

Lemma split_underscore_pieces (s cur : string) :
  no_underscore cur = true ->
  Forall (fun p => no_underscore p = true) (Py.split_go "_" s O cur).
Proof.
  revert cur. induction s as [|c s IH]; intros cur Hc.
  - cbn [Py.split_go]. constructor; [|constructor].
    unfold String.rev. rewrite no_underscore_rev_app, Hc. reflexivity.
  - cbn [Py.split_go Py.startswith String.length Nat.pred].
    rewrite Ascii.eqb_sym.
    destruct (Ascii.eqb c "_") eqn:E.
    + constructor; [|now apply IH].
      unfold String.rev. rewrite no_underscore_rev_app, Hc. reflexivity.
    + apply IH. cbn [no_underscore]. now rewrite E, Hc.
Qed.

Lemma tidy_go_piece (p q : string) (b : bool) :
  no_underscore p = true -> Py.truthy p = true ->
  tidy_go b (p +:+ q) = tidy_go false q.
Proof.
  revert b. induction p as [|c p IH]; intros b Hn Ht; [discriminate Ht|].
  cbn [no_underscore] in Hn. apply andb_true_iff in Hn as [Hc Hn].
  change (String c p +:+ q) with (String c (p +:+ q)). cbn [tidy_go].
  destruct (Ascii.eqb c "_"); [discriminate Hc|].
  destruct p as [|c' p]; [reflexivity|]. now apply IH.
Qed.

Lemma tidy_join (pieces : list string) :
  pieces <> [] ->
  Forall (fun p => no_underscore p = true /\ Py.truthy p = true) pieces ->
  tidy_go true (Py.join "_" pieces) = true.
Proof.
  induction pieces as [|p rest IH]; intros Hne HF; [contradiction|].
  apply Forall_cons in HF as [[Hn Ht] HF].
  destruct rest as [|p' rest].
  - cbn [Py.join]. rewrite <- (append_nil_r p).
    now rewrite tidy_go_piece.
  - rewrite join_cons by discriminate.
    rewrite tidy_go_piece by assumption.
    change ("_" +:+ Py.join "_" (p' :: rest))
      with (String "_" (Py.join "_" (p' :: rest))).
    cbn [tidy_go Ascii.eqb Bool.eqb negb andb]. apply IH; [discriminate | exact HF].
Qed.

(** X10.  The identifier a case is attached under never starts or ends with
    an underscore and never has two in a row, whatever characters the
    type, the prefix, the name and the parameters hold. *)
Theorem identifiers_have_no_excess_underscores (d : TestCase) (typ prefix : string) :
  no_excess_underscores (test_name_of d typ prefix) = true
  /\ forall s, no_excess_underscores (to_varname_without_excess_underscores s) = true.
Proof.
  assert (H : forall s,
            no_excess_underscores (to_varname_without_excess_underscores s) = true).
  { intros s. unfold to_varname_without_excess_underscores.
    set (pieces := filter _ _).
    assert (HF : Forall (fun p => no_underscore p = true /\ Py.truthy p = true) pieces).
    { apply Forall_forall. intros p Hp. subst pieces.
      apply list_elem_of_filter in Hp as [Ht Hp]. split.
      - pose proof (split_underscore_pieces (to_varname s) "" eq_refl) as Hall.
        rewrite Forall_forall in Hall. now apply Hall.
      - now apply Is_true_true. }
    destruct pieces as [|p rest] eqn:E; [reflexivity|].
    pose proof (tidy_join (p :: rest) ltac:(discriminate) HF) as Ht.
    unfold no_excess_underscores. destruct (Py.join "_" (p :: rest)); [reflexivity | exact Ht]. }
  split; [apply H | exact H].
Qed.

(** ** Multi-channel cases fail as a whole *)

Lemma mapM_first_failure {A B} (f : A -> res B) (before after : list A)
    (x : A) (e : exn) :
  Forall (fun a => is_ok (f a) = true) before ->
  f x = Raise e ->
  mapM f (before ++ x :: after) = Raise e.
Proof.
  intros HF Hx. induction HF as [|a before Ha HF IH].
  - cbn [app mapM]. now rewrite Hx.
  - cbn [app mapM]. destruct (f a); [|discriminate Ha..].
    cbn [mbind res_bind]. rewrite IH. reflexivity.
Qed.

(** X11.  For a list of channels, the first entry whose synthesis fails
    decides: its exception is the outcome of [gen_usecase], and no
    partial list of records is returned. *)
Theorem multi_channel_fails_as_a_whole (d : TestCase) (prefix : string)
    (before after : list CallExpression) (ce : CallExpression) (e : exn) :
  call_expr d = Some (CEList (before ++ ce :: after)) ->
  Forall (fun c => is_ok (create_func (usecase_params d) (code c)) = true) before ->
  create_func (usecase_params d) (code ce) = Raise e ->
  gen_usecase d prefix = Raise e.
Proof.
  intros Hce HF Hbad. unfold gen_usecase, usecase_inputs. rewrite Hce.
  rewrite (mapM_first_failure _ before after ce e); [reflexivity| |].
  - eapply Forall_impl; [exact HF|]. intros c Hc. cbn beta in *.
    destruct (create_func (usecase_params d) (code c)) eqn:E;
      [reflexivity | discriminate Hc..].
  - cbn beta. now rewrite Hbad.
Qed.

(** The theorem at three channels, the second malformed. *)
Lemma multi_channel_fails_as_a_whole_witness :
  gen_usecase broken_channel_case "" = Raise SyntaxError.
Proof.
  apply (multi_channel_fails_as_a_whole broken_channel_case ""
           [{| code := "data + other"; type_ := "Python"; jitted := false |}]
           [{| code := "data + other"; type_ := "SDC"; jitted := true |}]
           {| code := "data +"; type_ := "Numba"; jitted := true |}).
  - reflexivity.
  - constructor; [vm_compute; reflexivity | constructor].
  - vm_compute. reflexivity.
Defined.
